(** * The block coordinator of the ledger: a shallow embedding

    This development embeds [libs/ledger/src/chain/block_coordinator.cpp]:
    the fourteen state handlers of [BlockCoordinator], its scheduling
    helpers and the data they touch.  The collaborators the coordinator
    only holds references to (main chain, storage unit, execution manager,
    block packer, miner, block sink, transaction status cache) are
    interfaces in the C++ code; they are type classes here, each over the
    state of the object behind the reference.

    Conventions.
    - [ConstByteArray] values (digests, identities) are byte strings.
    - [uint64_t] and [unsigned] arithmetic is written on [Z] with its
      wrap-around spelled out.
    - A handler is a computation in a state-and-fault monad over the
      coordinator's members, the collaborators and the list of calls made
      on them.  Dereferencing a null [current_block_] or [next_block_],
      and reading past the end of a vector, are undefined in C++; they are
      the two faults of the monad.
    - Log statements are not modelled, except that the member accesses made
      to build their arguments are (they can fault like any other). *)

From stdpp Require Import gmap strings list.
From Stdlib Require Import ZArith.

Local Open Scope Z_scope.

(** ** Data model *)

Abbreviation Digest := string (only parsing).
Abbreviation Identity := string (only parsing).

Definition DIGEST_LENGTH_BYTES : nat := 32.
Definition IDENTITY_LENGTH_BYTES : nat := 64.

Definition TX_SYNC_NOTIFY_INTERVAL : Z := 1000.
Definition EXEC_NOTIFY_INTERVAL : Z := 500.
Definition NOTIFY_INTERVAL : Z := 10000.

(** [uint64_t] wrap-around. *)
Definition wrap64 (z : Z) : Z := z mod 2 ^ 64.

(** [1u << n] on a 32-bit [unsigned], for [n] a [uint32_t].  The shift is
    defined for [n < 32] only, and then [2 ^ n] fits the type; for a count
    of 32 or more the behaviour is undefined and there is no value. *)
Definition shl1u (n : Z) : option Z :=
  if decide (0 <= n < 32) then Some (Z.shiftl 1 n) else None.

(** An entry of a slice; the coordinator reads its [transaction_hash]. *)
Record TransactionSummary := { transaction_hash : Digest }.

Abbreviation Slice := (list TransactionSummary) (only parsing).

Record Body := {
  hash : Digest;
  previous_hash : Digest;
  merkle_hash : Digest;
  block_number : Z;
  miner : Identity;
  log2_num_lanes : Z;
  slices : list Slice
}.

Record Proof := { target : Z }.

Record Block := {
  body : Body;
  nonce : Z;
  proof : Proof
}.

(** A value-initialised [Block], as made by [std::make_unique<Block>()]. *)
Definition empty_Body : Body :=
  {| hash := ""; previous_hash := ""; merkle_hash := ""; block_number := 0;
     miner := ""; log2_num_lanes := 0; slices := [] |}.

Definition empty_Block : Block :=
  {| body := empty_Body; nonce := 0; proof := {| target := 0 |} |}.

Definition set_body (f : Body -> Body) (b : Block) : Block :=
  {| body := f (body b); nonce := nonce b; proof := proof b |}.

Definition with_hash (h : Digest) (b : Body) : Body :=
  {| hash := h; previous_hash := previous_hash b; merkle_hash := merkle_hash b;
     block_number := block_number b; miner := miner b;
     log2_num_lanes := log2_num_lanes b; slices := slices b |}.

Definition with_previous_hash (h : Digest) (b : Body) : Body :=
  {| hash := hash b; previous_hash := h; merkle_hash := merkle_hash b;
     block_number := block_number b; miner := miner b;
     log2_num_lanes := log2_num_lanes b; slices := slices b |}.

Definition with_merkle_hash (h : Digest) (b : Body) : Body :=
  {| hash := hash b; previous_hash := previous_hash b; merkle_hash := h;
     block_number := block_number b; miner := miner b;
     log2_num_lanes := log2_num_lanes b; slices := slices b |}.

Definition with_block_number (n : Z) (b : Body) : Body :=
  {| hash := hash b; previous_hash := previous_hash b; merkle_hash := merkle_hash b;
     block_number := n; miner := miner b;
     log2_num_lanes := log2_num_lanes b; slices := slices b |}.

Definition with_miner (i : Identity) (b : Body) : Body :=
  {| hash := hash b; previous_hash := previous_hash b; merkle_hash := merkle_hash b;
     block_number := block_number b; miner := i;
     log2_num_lanes := log2_num_lanes b; slices := slices b |}.

(** [proof.SetTarget(difficulty)]. *)
Definition SetTarget (difficulty : Z) (b : Block) : Block :=
  {| body := body b; nonce := nonce b; proof := {| target := difficulty |} |}.

(** The transactions of a block in slice order, as the nested loops of
    [UpdateTxStatus] and [OnWaitForTransactions] visit them. *)
Definition block_txs (b : Block) : list Digest :=
  flat_map (fun slice => map transaction_hash slice) (slices (body b)).

(** ** Enumerations *)

Inductive State :=
| RELOAD_STATE
| SYNCHRONIZING
| SYNCHRONIZED
| PRE_EXEC_BLOCK_VALIDATION
| WAIT_FOR_TRANSACTIONS
| SCHEDULE_BLOCK_EXECUTION
| WAIT_FOR_EXECUTION
| POST_EXEC_BLOCK_VALIDATION
| PACK_NEW_BLOCK
| EXECUTE_NEW_BLOCK
| WAIT_FOR_NEW_BLOCK_EXECUTION
| PROOF_SEARCH
| TRANSMIT_BLOCK
| RESET.

Inductive ExecutionStatus := IDLE | RUNNING | STALLED | ERROR.

(** [ExecutionManagerInterface::State] and [::ScheduleStatus]. *)
Inductive ExecutionState :=
| ES_IDLE
| ES_ACTIVE
| ES_TRANSACTIONS_UNAVAILABLE
| ES_EXECUTION_ABORTED
| ES_EXECUTION_FAILED.

Inductive ScheduleStatus :=
| SCHEDULED
| NOT_STARTED
| ALREADY_RUNNING
| NO_PARENT_BLOCK
| UNABLE_TO_PLAN.

(** The coordinator compares the result of [AddBlock] with [ADDED] and the
    status it writes to the cache is [EXECUTED]; the other enumerators are
    never inspected. *)
Inductive BlockStatus := ADDED | LOOSE | DUPLICATE | INVALID.

Inductive TransactionStatus := UNKNOWN | EXECUTED.

Global Instance State_eq_dec : EqDecision State.
Proof. solve_decision. Defined.
Global Instance ExecutionStatus_eq_dec : EqDecision ExecutionStatus.
Proof. solve_decision. Defined.
Global Instance ScheduleStatus_eq_dec : EqDecision ScheduleStatus.
Proof. solve_decision. Defined.
Global Instance BlockStatus_eq_dec : EqDecision BlockStatus.
Proof. solve_decision. Defined.
Global Instance TransactionStatus_eq_dec : EqDecision TransactionStatus.
Proof. solve_decision. Defined.
Global Instance TransactionSummary_eq_dec : EqDecision TransactionSummary.
Proof. solve_decision. Defined.
Global Instance Body_eq_dec : EqDecision Body.
Proof. solve_decision. Defined.
Global Instance Proof_eq_dec : EqDecision Proof.
Proof. solve_decision. Defined.
Global Instance Block_eq_dec : EqDecision Block.
Proof. solve_decision. Defined.

(** The outcome of a call made inside a [try] block. *)
Inductive Except (R : Type) := Returned (r : R) | Thrown.
Arguments Returned {R} r.
Arguments Thrown {R}.

(** ** The periodic notifier *)

(** Modelled from the spec: [PeriodicAction] (core/periodic_action.hpp is
    not part of the sources).  [Poll] answers true at most once per
    interval; [Reset] restarts the interval from now; the only state is
    the instant the notifier last fired. *)
Record PeriodicAction := { interval : Z; last_fired : Z }.

Definition Poll (now : Z) (p : PeriodicAction) : bool * PeriodicAction :=
  if interval p <=? now - last_fired p
  then (true, {| interval := interval p; last_fired := now |})
  else (false, p).

Definition Reset (now : Z) (p : PeriodicAction) : PeriodicAction :=
  {| interval := interval p; last_fired := now |}.

(** ** The coordinator's members *)

Record BlockCoordinator := {
  current_block_ : option Block;
  next_block_ : option Block;
  pending_txs_ : option (gset string);
  last_executed_block_ : Digest;
  next_block_time_ : Z;
  stall_count_ : Z;
  mining_ : bool;
  mining_enabled_ : bool;
  block_difficulty_ : Z;
  num_lanes_ : Z;
  num_slices_ : Z;
  block_period_ : Z;
  identity_ : Identity;
  tx_wait_periodic_ : PeriodicAction;
  exec_wait_periodic_ : PeriodicAction;
  syncing_periodic_ : PeriodicAction
}.

Definition set_current_block (v : option Block) (c : BlockCoordinator) : BlockCoordinator :=
  {| current_block_ := v; next_block_ := next_block_ c; pending_txs_ := pending_txs_ c;
     last_executed_block_ := last_executed_block_ c; next_block_time_ := next_block_time_ c;
     stall_count_ := stall_count_ c; mining_ := mining_ c; mining_enabled_ := mining_enabled_ c;
     block_difficulty_ := block_difficulty_ c; num_lanes_ := num_lanes_ c;
     num_slices_ := num_slices_ c; block_period_ := block_period_ c; identity_ := identity_ c;
     tx_wait_periodic_ := tx_wait_periodic_ c; exec_wait_periodic_ := exec_wait_periodic_ c;
     syncing_periodic_ := syncing_periodic_ c |}.

Definition set_next_block (v : option Block) (c : BlockCoordinator) : BlockCoordinator :=
  {| current_block_ := current_block_ c; next_block_ := v; pending_txs_ := pending_txs_ c;
     last_executed_block_ := last_executed_block_ c; next_block_time_ := next_block_time_ c;
     stall_count_ := stall_count_ c; mining_ := mining_ c; mining_enabled_ := mining_enabled_ c;
     block_difficulty_ := block_difficulty_ c; num_lanes_ := num_lanes_ c;
     num_slices_ := num_slices_ c; block_period_ := block_period_ c; identity_ := identity_ c;
     tx_wait_periodic_ := tx_wait_periodic_ c; exec_wait_periodic_ := exec_wait_periodic_ c;
     syncing_periodic_ := syncing_periodic_ c |}.

Definition set_pending_txs (v : option (gset string)) (c : BlockCoordinator) : BlockCoordinator :=
  {| current_block_ := current_block_ c; next_block_ := next_block_ c; pending_txs_ := v;
     last_executed_block_ := last_executed_block_ c; next_block_time_ := next_block_time_ c;
     stall_count_ := stall_count_ c; mining_ := mining_ c; mining_enabled_ := mining_enabled_ c;
     block_difficulty_ := block_difficulty_ c; num_lanes_ := num_lanes_ c;
     num_slices_ := num_slices_ c; block_period_ := block_period_ c; identity_ := identity_ c;
     tx_wait_periodic_ := tx_wait_periodic_ c; exec_wait_periodic_ := exec_wait_periodic_ c;
     syncing_periodic_ := syncing_periodic_ c |}.

Definition set_last_executed_block (v : Digest) (c : BlockCoordinator) : BlockCoordinator :=
  {| current_block_ := current_block_ c; next_block_ := next_block_ c;
     pending_txs_ := pending_txs_ c;
     last_executed_block_ := v; next_block_time_ := next_block_time_ c;
     stall_count_ := stall_count_ c; mining_ := mining_ c; mining_enabled_ := mining_enabled_ c;
     block_difficulty_ := block_difficulty_ c; num_lanes_ := num_lanes_ c;
     num_slices_ := num_slices_ c; block_period_ := block_period_ c; identity_ := identity_ c;
     tx_wait_periodic_ := tx_wait_periodic_ c; exec_wait_periodic_ := exec_wait_periodic_ c;
     syncing_periodic_ := syncing_periodic_ c |}.

Definition set_next_block_time (v : Z) (c : BlockCoordinator) : BlockCoordinator :=
  {| current_block_ := current_block_ c; next_block_ := next_block_ c;
     pending_txs_ := pending_txs_ c;
     last_executed_block_ := last_executed_block_ c; next_block_time_ := v;
     stall_count_ := stall_count_ c; mining_ := mining_ c; mining_enabled_ := mining_enabled_ c;
     block_difficulty_ := block_difficulty_ c; num_lanes_ := num_lanes_ c;
     num_slices_ := num_slices_ c; block_period_ := block_period_ c; identity_ := identity_ c;
     tx_wait_periodic_ := tx_wait_periodic_ c; exec_wait_periodic_ := exec_wait_periodic_ c;
     syncing_periodic_ := syncing_periodic_ c |}.

Definition set_stall_count (v : Z) (c : BlockCoordinator) : BlockCoordinator :=
  {| current_block_ := current_block_ c; next_block_ := next_block_ c;
     pending_txs_ := pending_txs_ c;
     last_executed_block_ := last_executed_block_ c; next_block_time_ := next_block_time_ c;
     stall_count_ := v; mining_ := mining_ c; mining_enabled_ := mining_enabled_ c;
     block_difficulty_ := block_difficulty_ c; num_lanes_ := num_lanes_ c;
     num_slices_ := num_slices_ c; block_period_ := block_period_ c; identity_ := identity_ c;
     tx_wait_periodic_ := tx_wait_periodic_ c; exec_wait_periodic_ := exec_wait_periodic_ c;
     syncing_periodic_ := syncing_periodic_ c |}.

Definition set_tx_wait_periodic (v : PeriodicAction) (c : BlockCoordinator) : BlockCoordinator :=
  {| current_block_ := current_block_ c; next_block_ := next_block_ c;
     pending_txs_ := pending_txs_ c;
     last_executed_block_ := last_executed_block_ c; next_block_time_ := next_block_time_ c;
     stall_count_ := stall_count_ c; mining_ := mining_ c; mining_enabled_ := mining_enabled_ c;
     block_difficulty_ := block_difficulty_ c; num_lanes_ := num_lanes_ c;
     num_slices_ := num_slices_ c; block_period_ := block_period_ c; identity_ := identity_ c;
     tx_wait_periodic_ := v; exec_wait_periodic_ := exec_wait_periodic_ c;
     syncing_periodic_ := syncing_periodic_ c |}.

Definition set_exec_wait_periodic (v : PeriodicAction) (c : BlockCoordinator) : BlockCoordinator :=
  {| current_block_ := current_block_ c; next_block_ := next_block_ c;
     pending_txs_ := pending_txs_ c;
     last_executed_block_ := last_executed_block_ c; next_block_time_ := next_block_time_ c;
     stall_count_ := stall_count_ c; mining_ := mining_ c; mining_enabled_ := mining_enabled_ c;
     block_difficulty_ := block_difficulty_ c; num_lanes_ := num_lanes_ c;
     num_slices_ := num_slices_ c; block_period_ := block_period_ c; identity_ := identity_ c;
     tx_wait_periodic_ := tx_wait_periodic_ c; exec_wait_periodic_ := v;
     syncing_periodic_ := syncing_periodic_ c |}.

Definition set_syncing_periodic (v : PeriodicAction) (c : BlockCoordinator) : BlockCoordinator :=
  {| current_block_ := current_block_ c; next_block_ := next_block_ c;
     pending_txs_ := pending_txs_ c;
     last_executed_block_ := last_executed_block_ c; next_block_time_ := next_block_time_ c;
     stall_count_ := stall_count_ c; mining_ := mining_ c; mining_enabled_ := mining_enabled_ c;
     block_difficulty_ := block_difficulty_ c; num_lanes_ := num_lanes_ c;
     num_slices_ := num_slices_ c; block_period_ := block_period_ c; identity_ := identity_ c;
     tx_wait_periodic_ := tx_wait_periodic_ c; exec_wait_periodic_ := exec_wait_periodic_ c;
     syncing_periodic_ := v |}.

(** ** Calls on the collaborators

    Every call that changes a collaborator, the delay hint given to the
    state machine and every [last_executed_block_.Set] is recorded, in
    program order. *)
Inductive Call :=
| Call_AddBlock (b : Block)
| Call_RemoveBlock (h : Digest)
| Call_RevertToHash (h : Digest) (n : Z)
| Call_Commit (n : Z)
| Call_Execute (b : Body)
| Call_SetLastProcessedBlock (h : Digest)
| Call_GenerateBlock (b : Block) (lanes num : Z)
| Call_Mine (b : Block) (iterations : Z)
| Call_OnBlock (b : Block)
| Call_Update (tx : Digest) (st : TransactionStatus)
| Call_Delay (ms : Z)
| Call_SetLastExecuted (h : Digest).

Global Instance Call_eq_dec : EqDecision Call.
Proof. solve_decision. Defined.

(** ** The collaborators' interfaces *)

(** [ledger/chain/constants.hpp] is not part of the sources: the two
    genesis constants are parameters. *)
Class ChainConstants := {
  GENESIS_DIGEST : Digest;
  GENESIS_MERKLE_ROOT : Digest
}.

(** [Block::UpdateDigest] recomputes [body.hash] from the block; the hash
    function is a parameter. *)
Class BlockDigest := { digest_of : Block -> Digest }.

Definition UpdateDigest `{BlockDigest} (b : Block) : Block :=
  set_body (with_hash (digest_of b)) b.

(** A [BlockPtr] is a shared pointer: [None] is the null pointer. *)
Class MainChain (C : Type) := {
  GetHeaviestBlock : C -> option Block;
  GetHeaviestBlockHash : C -> Digest;
  GetBlock : C -> Digest -> option Block;
  (** [None] when the call returns false, otherwise the [blocks] written *)
  GetPathToCommonAncestor : C -> Digest -> Digest -> option (list Block);
  AddBlock : Block -> C -> Except BlockStatus * C;
  RemoveBlock : Digest -> C -> C
}.

Class StorageUnitInterface (S : Type) := {
  CurrentHash : S -> Digest;
  LastCommitHash : S -> Digest;
  HashExists : S -> Digest -> Z -> bool;
  HasTransaction : S -> Digest -> bool;
  RevertToHash : Digest -> Z -> S -> bool * S;
  Commit : Z -> S -> S
}.

Class ExecutionManagerInterface (X : Type) := {
  Execute : Body -> X -> ScheduleStatus * X;
  GetState : X -> ExecutionState;
  SetLastProcessedBlock : Digest -> X -> X;
  LastProcessedBlock : X -> Digest
}.

(** [GenerateBlock] receives the block by reference and writes into it:
    the result is whether the call returned or threw, and the block as the
    packer left it in either case. *)
Class BlockPackerInterface (C P : Type) := {
  GenerateBlock : Block -> Z -> Z -> C -> P -> Except unit * Block * P
}.

Class MinerInterface (Mi : Type) := {
  Mine : Block -> Z -> Mi -> (bool * Block) * Mi
}.

Class BlockSinkInterface (K : Type) := {
  OnBlock : Block -> K -> Except unit * K
}.

Class TransactionStatusCache (T : Type) := {
  Update : Digest -> TransactionStatus -> T -> T
}.

(** ** The world a handler runs in *)

Section Coordinator.

Context {C S X P Mi K T : Type}.
Context `{!ChainConstants, !BlockDigest}.
Context `{!MainChain C, !StorageUnitInterface S, !ExecutionManagerInterface X,
          !BlockPackerInterface C P, !MinerInterface Mi, !BlockSinkInterface K,
          !TransactionStatusCache T}.

(** The objects behind the coordinator's references, and the clock. *)
Record Env := {
  chain_ : C;
  storage_unit_ : S;
  execution_manager_ : X;
  block_packer_ : P;
  miner_ : Mi;
  block_sink_ : K;
  status_cache_ : T;
  clock_now : Z
}.

Definition set_chain (v : C) (e : Env) : Env :=
  {| chain_ := v; storage_unit_ := storage_unit_ e;
     execution_manager_ := execution_manager_ e; block_packer_ := block_packer_ e;
     miner_ := miner_ e; block_sink_ := block_sink_ e; status_cache_ := status_cache_ e;
     clock_now := clock_now e |}.

Definition set_storage_unit (v : S) (e : Env) : Env :=
  {| chain_ := chain_ e; storage_unit_ := v;
     execution_manager_ := execution_manager_ e; block_packer_ := block_packer_ e;
     miner_ := miner_ e; block_sink_ := block_sink_ e; status_cache_ := status_cache_ e;
     clock_now := clock_now e |}.

Definition set_execution_manager (v : X) (e : Env) : Env :=
  {| chain_ := chain_ e; storage_unit_ := storage_unit_ e;
     execution_manager_ := v; block_packer_ := block_packer_ e;
     miner_ := miner_ e; block_sink_ := block_sink_ e; status_cache_ := status_cache_ e;
     clock_now := clock_now e |}.

Definition set_block_packer (v : P) (e : Env) : Env :=
  {| chain_ := chain_ e; storage_unit_ := storage_unit_ e;
     execution_manager_ := execution_manager_ e; block_packer_ := v;
     miner_ := miner_ e; block_sink_ := block_sink_ e; status_cache_ := status_cache_ e;
     clock_now := clock_now e |}.

Definition set_miner (v : Mi) (e : Env) : Env :=
  {| chain_ := chain_ e; storage_unit_ := storage_unit_ e;
     execution_manager_ := execution_manager_ e; block_packer_ := block_packer_ e;
     miner_ := v; block_sink_ := block_sink_ e; status_cache_ := status_cache_ e;
     clock_now := clock_now e |}.

Definition set_block_sink (v : K) (e : Env) : Env :=
  {| chain_ := chain_ e; storage_unit_ := storage_unit_ e;
     execution_manager_ := execution_manager_ e; block_packer_ := block_packer_ e;
     miner_ := miner_ e; block_sink_ := v; status_cache_ := status_cache_ e;
     clock_now := clock_now e |}.

Definition set_status_cache (v : T) (e : Env) : Env :=
  {| chain_ := chain_ e; storage_unit_ := storage_unit_ e;
     execution_manager_ := execution_manager_ e; block_packer_ := block_packer_ e;
     miner_ := miner_ e; block_sink_ := block_sink_ e; status_cache_ := v;
     clock_now := clock_now e |}.

Record World := {
  self : BlockCoordinator;
  env : Env;
  calls : list Call
}.

(** What a handler can do that C++ leaves undefined: dereference a null
    [BlockPtr], read past the end of a sequence, shift by the width of the
    type or more.  Calls on the collaborators are taken to return; those
    made inside a [try] block may throw ([Except]). *)
Inductive Fault := NullDereference | OutOfRange | UndefinedShift.

Inductive Outcome (A : Type) :=
| Ok (a : A) (w : World)
| Crash (f : Fault).

Global Arguments Ok {A} a w.
Global Arguments Crash {A} f.

(** ** The handler monad *)

Definition M (A : Type) : Type := World -> Outcome A.

Definition ret {A} (a : A) : M A := fun w => Ok a w.

Definition bind {A B} (m : M A) (f : A -> M B) : M B := fun w =>
  match m w with
  | Ok a w' => f a w'
  | Crash e => Crash e
  end.

Notation "x <- m ;; k" := (bind m (fun x => k))
  (at level 100, m at next level, right associativity, only parsing).
Notation "m ;; k" := (bind m (fun _ => k))
  (at level 100, right associativity, only parsing).

Definition fault {A} (f : Fault) : M A := fun _ => Crash f.

(** Read a member of the coordinator, or of a collaborator. *)
Definition member {A} (f : BlockCoordinator -> A) : M A :=
  fun w => Ok (f (self w)) w.

Definition query {A} (f : Env -> A) : M A :=
  fun w => Ok (f (env w)) w.

Definition assign (f : BlockCoordinator -> BlockCoordinator) : M unit :=
  fun w => Ok tt {| self := f (self w); env := env w; calls := calls w |}.

(** Record a call, then let it act on the collaborators. *)
Definition invoke {R} (c : Call) (f : Env -> R * Env) : M R :=
  fun w => Ok (f (env w)).1
              {| self := self w; env := (f (env w)).2; calls := calls w ++ [c] |}.

(** [*p] and [p->] on an optional reference. *)
Definition deref {A} (p : option A) : M A :=
  match p with
  | Some a => ret a
  | None => fault NullDereference
  end.

(** [v[i]] on a sequence: reading past its end is undefined. *)
Definition at_index {A} (l : list A) (i : nat) : M A :=
  match l !! i with
  | Some a => ret a
  | None => fault OutOfRange
  end.

(** [1u << n]. *)
Definition shift_left_1u (n : Z) : M Z :=
  match shl1u n with
  | Some v => ret v
  | None => fault UndefinedShift
  end.

(** *** The collaborators' methods as computations *)

Definition chain_AddBlock (b : Block) : M (Except BlockStatus) :=
  invoke (Call_AddBlock b)
    (fun e => ((AddBlock b (chain_ e)).1, set_chain (AddBlock b (chain_ e)).2 e)).

Definition chain_RemoveBlock (h : Digest) : M unit :=
  invoke (Call_RemoveBlock h) (fun e => (tt, set_chain (RemoveBlock h (chain_ e)) e)).

Definition storage_RevertToHash (h : Digest) (n : Z) : M bool :=
  invoke (Call_RevertToHash h n)
    (fun e => ((RevertToHash h n (storage_unit_ e)).1,
               set_storage_unit (RevertToHash h n (storage_unit_ e)).2 e)).

Definition storage_Commit (n : Z) : M unit :=
  invoke (Call_Commit n) (fun e => (tt, set_storage_unit (Commit n (storage_unit_ e)) e)).

Definition exec_Execute (b : Body) : M ScheduleStatus :=
  invoke (Call_Execute b)
    (fun e => ((Execute b (execution_manager_ e)).1,
               set_execution_manager (Execute b (execution_manager_ e)).2 e)).

Definition exec_SetLastProcessedBlock (h : Digest) : M unit :=
  invoke (Call_SetLastProcessedBlock h)
    (fun e => (tt, set_execution_manager (SetLastProcessedBlock h (execution_manager_ e)) e)).

Definition packer_GenerateBlock (b : Block) (lanes num : Z) : M (Except unit * Block) :=
  invoke (Call_GenerateBlock b lanes num)
    (fun e => ((GenerateBlock b lanes num (chain_ e) (block_packer_ e)).1,
               set_block_packer (GenerateBlock b lanes num (chain_ e) (block_packer_ e)).2 e)).

Definition miner_Mine (b : Block) (iterations : Z) : M (bool * Block) :=
  invoke (Call_Mine b iterations)
    (fun e => ((Mine b iterations (miner_ e)).1, set_miner (Mine b iterations (miner_ e)).2 e)).

Definition sink_OnBlock (b : Block) : M (Except unit) :=
  invoke (Call_OnBlock b)
    (fun e => ((OnBlock b (block_sink_ e)).1, set_block_sink (OnBlock b (block_sink_ e)).2 e)).

Definition cache_Update (tx : Digest) (st : TransactionStatus) : M unit :=
  invoke (Call_Update tx st)
    (fun e => (tt, set_status_cache (Update tx st (status_cache_ e)) e)).

(** [state_machine_->Delay(ms)]: only the hint is recorded. *)
Definition Delay (ms : Z) : M unit :=
  fun w => Ok tt {| self := self w; env := env w; calls := calls w ++ [Call_Delay ms] |}.

(** [last_executed_block_.Set(h)]. *)
Definition last_executed_block_Set (h : Digest) : M unit :=
  fun w => Ok tt {| self := set_last_executed_block h (self w); env := env w;
                    calls := calls w ++ [Call_SetLastExecuted h] |}.

(** [periodic.Poll()] and [periodic.Reset()] on a member notifier. *)
Definition poll (get : BlockCoordinator -> PeriodicAction)
    (set : PeriodicAction -> BlockCoordinator -> BlockCoordinator) : M bool :=
  now <- query clock_now;;
  p <- member get;;
  assign (set (Poll now p).2);;
  ret (Poll now p).1.

Definition reset (get : BlockCoordinator -> PeriodicAction)
    (set : PeriodicAction -> BlockCoordinator -> BlockCoordinator) : M unit :=
  now <- query clock_now;;
  p <- member get;;
  assign (set (Reset now p)).

(** [if (c) { m }] with no else branch. *)
Definition when (c : bool) (m : M unit) : M unit :=
  if c then m else ret tt.

(** Run [body] once for each element, in order. *)
Fixpoint for_each {A} (l : list A) (body : A -> M unit) : M unit :=
  match l with
  | [] => ret tt
  | x :: l' => body x;; for_each l' body
  end.

(** ** Scheduling helpers *)

Definition ScheduleBlock (block : Block) : M bool :=
  execution_status <- exec_Execute (body block);;
  if decide (execution_status = SCHEDULED) then ret true else ret false.

Definition ScheduleCurrentBlock : M bool :=
  cb <- member current_block_;;
  match cb with
  | Some b => ScheduleBlock b
  | None => ret false
  end.

Definition ScheduleNextBlock : M bool :=
  nb <- member next_block_;;
  match nb with
  | Some b => ScheduleBlock b
  | None => ret false
  end.

Definition QueryExecutorStatus : M ExecutionStatus :=
  execution_state <- query (fun e => GetState (execution_manager_ e));;
  ret (match execution_state with
        | ES_IDLE => IDLE
        | ES_ACTIVE => RUNNING
        | ES_TRANSACTIONS_UNAVAILABLE => STALLED
        | ES_EXECUTION_ABORTED | ES_EXECUTION_FAILED => ERROR
        end).

Definition UpdateNextBlockTime : M unit :=
  now <- query clock_now;;
  period <- member block_period_;;
  assign (set_next_block_time (now + period)).

Definition UpdateTxStatus (block : Block) : M unit :=
  for_each (slices (body block)) (fun slice =>
    for_each slice (fun tx => cache_Update (transaction_hash tx) EXECUTED)).

Definition TriggerBlockGeneration : M unit :=
  mining <- member mining_;;
  when mining (now <- query clock_now;; assign (set_next_block_time now)).

(** ** The state handlers *)

Definition OnReloadState : M State :=
  cb <- member current_block_;;
  match cb with
  | None =>
      heaviest <- query (fun e => GetHeaviestBlock (chain_ e));;
      assign (set_current_block heaviest)
  | Some _ => ret tt
  end;;
  cb <- member current_block_;;
  current <- deref cb;;
  when (bool_decide (GENESIS_DIGEST <> previous_hash (body current)))
    (revert_success <- storage_RevertToHash (merkle_hash (body current))
                                            (block_number (body current));;
     when revert_success
       (exec_SetLastProcessedBlock (hash (body current));;
        last_executed_block_Set (hash (body current))));;
  ret RESET.

Definition OnSynchronizing : M State :=
  cb <- member current_block_;;
  match cb with
  | None =>
      heaviest <- query (fun e => GetHeaviestBlock (chain_ e));;
      assign (set_current_block heaviest)
  | Some _ => ret tt
  end;;
  extra_debug <- poll syncing_periodic_ set_syncing_periodic;;
  cb <- member current_block_;;
  current <- deref cb;;
  let current_hash := hash (body current) in
  let previous := previous_hash (body current) in
  let desired_state := merkle_hash (body current) in
  last_committed_state <- query (fun e => LastCommitHash (storage_unit_ e));;
  current_state <- query (fun e => CurrentHash (storage_unit_ e));;
  last_processed_block <- query (fun e => LastProcessedBlock (execution_manager_ e));;
  if decide (GENESIS_DIGEST = last_processed_block) then
    if decide (GENESIS_DIGEST = previous) then
      ret PRE_EXEC_BLOCK_VALIDATION
    else
      previous_block <- query (fun e => GetBlock (chain_ e) previous);;
      match previous_block with
      | None => ret RESET
      | Some _ =>
          assign (set_current_block previous_block);;
          ret SYNCHRONIZING
      end
  else if decide (current_hash = last_processed_block) then
    ret SYNCHRONIZED
  else
    lookup <- query (fun e => GetPathToCommonAncestor (chain_ e) current_hash
                                                      last_processed_block);;
    match lookup with
    | None => ret RESET
    | Some blocks =>
        (* assert(blocks.size() >= 2) is compiled out of release builds;
           auto it = blocks.crbegin(); common_parent = *it++; next_block = *it++ *)
        common_parent <- at_index (reverse blocks) 0;;
        next_block <- at_index (reverse blocks) 1;;
        known <- query (fun e => HashExists (storage_unit_ e)
                                   (merkle_hash (body common_parent))
                                   (block_number (body common_parent)));;
        if negb known then
          exec_SetLastProcessedBlock GENESIS_DIGEST;;
          _ <- storage_RevertToHash GENESIS_MERKLE_ROOT 0;;
          ret RESET
        else
          reverted <- storage_RevertToHash (merkle_hash (body common_parent))
                                           (block_number (body common_parent));;
          if negb reverted then
            ret RESET
          else
            assign (set_current_block (Some next_block));;
            ret PRE_EXEC_BLOCK_VALIDATION
    end.

Definition OnSynchronized (current previous : State) : M State :=
  reset syncing_periodic_ set_syncing_periodic;;
  heaviest_hash <- query (fun e => GetHeaviestBlockHash (chain_ e));;
  cb <- member current_block_;;
  current_block <- deref cb;;
  mining <- member mining_;;
  mining_enabled <- member mining_enabled_;;
  now <- query clock_now;;
  next_block_time <- member next_block_time_;;
  if decide (heaviest_hash <> hash (body current_block)) then
    ret RESET
  else if mining && mining_enabled && (next_block_time <=? now) then
    identity <- member identity_;;
    block_difficulty <- member block_difficulty_;;
    assign (set_next_block (Some
      (SetTarget block_difficulty
        (set_body (fun b =>
           with_miner identity
             (with_block_number (wrap64 (block_number (body current_block) + 1))
               (with_previous_hash (hash (body current_block)) b)))
         empty_Block))));;
    assign (set_current_block None);;
    ret PACK_NEW_BLOCK
  else
    ret SYNCHRONIZED.

Definition OnPreExecBlockValidation : M State :=
  cb <- member current_block_;;
  current <- deref cb;;
  num_lanes <- member num_lanes_;;
  num_slices <- member num_slices_;;
  let reject := chain_RemoveBlock (hash (body current));; ret RESET in
  let is_genesis := bool_decide (previous_hash (body current) = GENESIS_DIGEST) in
  let digest_check :=
    if decide (DIGEST_LENGTH_BYTES <> String.length (previous_hash (body current))) then
      reject
    else
      reset tx_wait_periodic_ set_tx_wait_periodic;;
      ret WAIT_FOR_TRANSACTIONS in
  if negb is_genesis then
    previous <- query (fun e => GetBlock (chain_ e) (previous_hash (body current)));;
    match previous with
    | None => reject
    | Some previous =>
        let expected_block_number := wrap64 (block_number (body previous) + 1) in
        if decide (expected_block_number <> block_number (body current)) then
          reject
        else if decide (IDENTITY_LENGTH_BYTES <> String.length (miner (body current))) then
          reject
        else
          lanes <- shift_left_1u (log2_num_lanes (body current));;
          if decide (num_lanes <> lanes) then
            reject
          else if decide (num_slices <> Z.of_nat (length (slices (body current)))) then
            reject
          else
            digest_check
    end
  else
    digest_check.

Definition OnWaitForTransactions : M State :=
  pending <- member pending_txs_;;
  match pending with
  | None =>
      cb <- member current_block_;;
      current <- deref cb;;
      assign (set_pending_txs (Some (list_to_set (block_txs current))))
  | Some _ => ret tt
  end;;
  pending <- member pending_txs_;;
  txs <- deref pending;;
  storage <- query storage_unit_;;
  let remaining : gset string := filter (fun tx => HasTransaction storage tx = false) txs in
  assign (set_pending_txs (Some remaining));;
  if decide (remaining = ∅) then
    assign (set_pending_txs None);;
    ret SCHEDULE_BLOCK_EXECUTION
  else
    _ <- poll tx_wait_periodic_ set_tx_wait_periodic;;
    Delay 200;;
    ret WAIT_FOR_TRANSACTIONS.

Definition OnScheduleBlockExecution : M State :=
  scheduled <- ScheduleCurrentBlock;;
  if scheduled then
    reset exec_wait_periodic_ set_exec_wait_periodic;;
    ret WAIT_FOR_EXECUTION
  else
    ret RESET.

Definition OnWaitForExecution : M State :=
  status <- QueryExecutorStatus;;
  match status with
  | IDLE => ret POST_EXEC_BLOCK_VALIDATION
  | RUNNING =>
      fire <- poll exec_wait_periodic_ set_exec_wait_periodic;;
      when fire (cb <- member current_block_;; _ <- deref cb;; ret tt);;
      Delay 20;;
      ret WAIT_FOR_EXECUTION
  | STALLED | ERROR => ret RESET
  end.

Definition OnPostExecBlockValidation : M State :=
  state_hash <- query (fun e => CurrentHash (storage_unit_ e));;
  cb <- member current_block_;;
  current <- deref cb;;
  let invalid_block :=
    bool_decide (GENESIS_DIGEST <> previous_hash (body current))
    && bool_decide (state_hash <> merkle_hash (body current)) in
  (if invalid_block then
     previous_block <- query (fun e => GetBlock (chain_ e) (previous_hash (body current)));;
     revert_successful <-
       match previous_block with
       | Some previous =>
           reverted <- storage_RevertToHash (merkle_hash (body previous))
                                            (block_number (body previous));;
           if reverted then
             exec_SetLastProcessedBlock (hash (body previous));;
             ret true
           else
             ret false
       | None => ret false
       end;;
     when (negb revert_successful)
       (_ <- storage_RevertToHash GENESIS_MERKLE_ROOT 0;;
        exec_SetLastProcessedBlock GENESIS_DIGEST);;
     chain_RemoveBlock (hash (body current))
   else
     UpdateTxStatus current;;
     storage_Commit (block_number (body current));;
     last_executed_block_Set (hash (body current)));;
  ret RESET.

Definition OnPackNewBlock : M State :=
  nb <- member next_block_;;
  next_block <- deref nb;;
  num_lanes <- member num_lanes_;;
  num_slices <- member num_slices_;;
  packed <- packer_GenerateBlock next_block num_lanes num_slices;;
  assign (set_next_block (Some packed.2));;
  match packed.1 with
  | Returned _ =>
      UpdateNextBlockTime;;
      ret EXECUTE_NEW_BLOCK
  | Thrown => ret RESET
  end.

Definition OnExecuteNewBlock : M State :=
  scheduled <- ScheduleNextBlock;;
  if scheduled then
    reset exec_wait_periodic_ set_exec_wait_periodic;;
    ret WAIT_FOR_NEW_BLOCK_EXECUTION
  else
    ret RESET.

Definition OnWaitForNewBlockExecution : M State :=
  status <- QueryExecutorStatus;;
  match status with
  | IDLE =>
      nb <- member next_block_;;
      next_block <- deref nb;;
      state_hash <- query (fun e => CurrentHash (storage_unit_ e));;
      assign (set_next_block (Some (set_body (with_merkle_hash state_hash) next_block)));;
      storage_Commit (block_number (body next_block));;
      ret PROOF_SEARCH
  | RUNNING =>
      fire <- poll exec_wait_periodic_ set_exec_wait_periodic;;
      when fire (nb <- member next_block_;; _ <- deref nb;; ret tt);;
      Delay 20;;
      ret WAIT_FOR_NEW_BLOCK_EXECUTION
  | STALLED | ERROR => ret RESET
  end.

Definition OnProofSearch : M State :=
  nb <- member next_block_;;
  next_block <- deref nb;;
  mined <- miner_Mine next_block 100;;
  assign (set_next_block (Some mined.2));;
  if mined.1 then
    assign (set_next_block (Some (UpdateDigest mined.2)));;
    exec_SetLastProcessedBlock (hash (body (UpdateDigest mined.2)));;
    ret TRANSMIT_BLOCK
  else
    ret PROOF_SEARCH.

Definition OnTransmitBlock : M State :=
  nb <- member next_block_;;
  next_block <- deref nb;;
  added <- chain_AddBlock next_block;;
  match added with
  | Returned ADDED =>
      UpdateTxStatus next_block;;
      last_executed_block_Set (hash (body next_block));;
      _ <- sink_OnBlock next_block;;
      ret RESET
  | _ => ret RESET
  end.

Definition OnReset : M State :=
  assign (set_current_block None);;
  assign (set_next_block None);;
  assign (set_pending_txs None);;
  assign (set_stall_count 0);;
  UpdateNextBlockTime;;
  ret SYNCHRONIZING.

(** ** The state machine runtime *)

(** Modelled from the spec: the state machine runtime (core/state_machine.hpp
    is not part of the sources).  A tick invokes the handler registered for
    the current state, with the current and the previous state, then
    [previous = current; current = next]. *)
Record Machine := {
  state : State;
  previous_state : State;
  world : World
}.

(** The registrations made by the coordinator's constructor. *)
Definition handler (current previous : State) : M State :=
  match current with
  | RELOAD_STATE => OnReloadState
  | SYNCHRONIZING => OnSynchronizing
  | SYNCHRONIZED => OnSynchronized current previous
  | PRE_EXEC_BLOCK_VALIDATION => OnPreExecBlockValidation
  | WAIT_FOR_TRANSACTIONS => OnWaitForTransactions
  | SCHEDULE_BLOCK_EXECUTION => OnScheduleBlockExecution
  | WAIT_FOR_EXECUTION => OnWaitForExecution
  | POST_EXEC_BLOCK_VALIDATION => OnPostExecBlockValidation
  | PACK_NEW_BLOCK => OnPackNewBlock
  | EXECUTE_NEW_BLOCK => OnExecuteNewBlock
  | WAIT_FOR_NEW_BLOCK_EXECUTION => OnWaitForNewBlockExecution
  | PROOF_SEARCH => OnProofSearch
  | TRANSMIT_BLOCK => OnTransmitBlock
  | RESET => OnReset
  end.

Inductive TickResult :=
| Ticked (m : Machine)
| Faulted (f : Fault).

Definition Tick (m : Machine) : TickResult :=
  match handler (state m) (previous_state m) (world m) with
  | Ok next w => Ticked {| state := next; previous_state := state m; world := w |}
  | Crash f => Faulted f
  end.

(** Between two ticks the collaborators run on their own: the executors
    change storage, blocks reach the chain, time passes. *)
Definition interfere (e : Env) (m : Machine) : Machine :=
  {| state := state m; previous_state := previous_state m;
     world := {| self := self (world m); env := e; calls := calls (world m) |} |}.

(** Between two ticks another thread may also call the coordinator's
    [TriggerBlockGeneration]. *)
Definition trigger (m : Machine) : Machine :=
  match TriggerBlockGeneration (world m) with
  | Ok _ w => {| state := state m; previous_state := previous_state m; world := w |}
  | Crash _ => m
  end.

(** The machines reachable from [RELOAD_STATE] when the collaborators may
    change as [rely] allows while the machine rests in a state. *)
Inductive reachable (rely : State -> Env -> Env -> Prop) : Machine -> Prop :=
| reachable_start previous w :
    reachable rely {| state := RELOAD_STATE; previous_state := previous; world := w |}
| reachable_tick m m' :
    reachable rely m -> Tick m = Ticked m' -> reachable rely m'
| reachable_interfere m e :
    reachable rely m -> rely (state m) (env (world m)) e -> reachable rely (interfere e m)
| reachable_trigger m :
    reachable rely m -> reachable rely (trigger m).

(** The block SYNCHRONIZING works on: [current_block_], or the heaviest
    block of the chain when [current_block_] is unset. *)
Definition block_to_synchronise (w : World) : option Block :=
  match current_block_ (self w) with
  | Some current => Some current
  | None => GetHeaviestBlock (chain_ (env w))
  end.



(** In PROOF_SEARCH and TRANSMIT_BLOCK the candidate block declares the
    state that storage holds. *)
Definition candidate_declares_storage (m : Machine) : Prop :=
  state m = PROOF_SEARCH \/ state m = TRANSMIT_BLOCK ->
  exists nb,
    next_block_ (self (world m)) = Some nb
    /\ merkle_hash (body nb) = CurrentHash (storage_unit_ (env (world m))).

(** The handlers that dereference [current_block_], respectively
    [next_block_], without testing it first. *)
Definition dereferences_current_block (s : State) : bool :=
  match s with
  | SYNCHRONIZED | PRE_EXEC_BLOCK_VALIDATION | WAIT_FOR_TRANSACTIONS
  | WAIT_FOR_EXECUTION | POST_EXEC_BLOCK_VALIDATION => true
  | _ => false
  end.

Definition dereferences_next_block (s : State) : bool :=
  match s with
  | PACK_NEW_BLOCK | EXECUTE_NEW_BLOCK | WAIT_FOR_NEW_BLOCK_EXECUTION
  | PROOF_SEARCH | TRANSMIT_BLOCK => true
  | _ => false
  end.

(** The block references a machine carries from tick to tick: the states
    above, and SCHEDULE_BLOCK_EXECUTION, which lies between two of them. *)
Definition block_references_set (m : Machine) : Prop :=
  (dereferences_current_block (state m) || bool_decide (state m = SCHEDULE_BLOCK_EXECUTION)
   -> is_Some (current_block_ (self (world m))))
  /\ (dereferences_next_block (state m) -> is_Some (next_block_ (self (world m)))).

Definition ticks (m : Machine) : bool :=
  match Tick m with
  | Ticked _ => true
  | Faulted _ => false
  end.

(** [n] ticks in a row; a machine that faults stays where it is. *)
Definition tick_or_stay (m : Machine) : Machine :=
  match Tick m with
  | Ticked m' => m'
  | Faulted _ => m
  end.

Definition run (n : nat) (m : Machine) : Machine := Nat.iter n tick_or_stay m.

(** The calls a tick adds to the record. *)
Definition new_calls (before after : World) : list Call :=
  drop (length (calls before)) (calls after).

(** The collaborators after [UpdateTxStatus] has marked [txs] executed. *)
Definition mark_executed (txs : list Digest) (e : Env) : Env :=
  set_status_cache (foldl (fun t tx => Update tx EXECUTED t) (status_cache_ e) txs) e.

(** ** The validation checks, as predicates

    What it means for the block under validation to fail a check of
    PRE_EXEC_BLOCK_VALIDATION or the Merkle comparison of
    POST_EXEC_BLOCK_VALIDATION.  The handlers are compared with these
    predicates below. *)

Definition fails_pre_exec_check (w : World) (b : Block) : Prop :=
  (previous_hash (body b) <> GENESIS_DIGEST
   /\ (GetBlock (chain_ (env w)) (previous_hash (body b)) = None
       \/ (exists previous,
             GetBlock (chain_ (env w)) (previous_hash (body b)) = Some previous
             /\ wrap64 (block_number (body previous) + 1) <> block_number (body b))
       \/ IDENTITY_LENGTH_BYTES <> String.length (miner (body b))
       \/ (exists lanes,
             shl1u (log2_num_lanes (body b)) = Some lanes /\ num_lanes_ (self w) <> lanes)
       \/ num_slices_ (self w) <> Z.of_nat (length (slices (body b)))))
  \/ DIGEST_LENGTH_BYTES <> String.length (previous_hash (body b)).

(** The block reaches the lane test with a shift count the type does not
    allow: the three tests before it pass and [log2_num_lanes] is 32 or
    more. *)
Definition shifts_out_of_range (w : World) (b : Block) : Prop :=
  previous_hash (body b) <> GENESIS_DIGEST
  /\ (exists previous,
        GetBlock (chain_ (env w)) (previous_hash (body b)) = Some previous
        /\ wrap64 (block_number (body previous) + 1) = block_number (body b))
  /\ IDENTITY_LENGTH_BYTES = String.length (miner (body b))
  /\ shl1u (log2_num_lanes (body b)) = None.

Definition fails_post_exec_check (w : World) (b : Block) : Prop :=
  GENESIS_DIGEST <> previous_hash (body b)
  /\ CurrentHash (storage_unit_ (env w)) <> merkle_hash (body b).

(** The calls by which POST_EXEC_BLOCK_VALIDATION recovers from an invalid
    block, before it removes the block: revert to the previous block and
    tell the execution manager, or, when the previous block is unknown or
    the revert fails, revert to genesis. *)
Definition recovery_calls (w : World) (b : Block) : list Call :=
  match GetBlock (chain_ (env w)) (previous_hash (body b)) with
  | Some previous =>
      if (RevertToHash (merkle_hash (body previous)) (block_number (body previous))
                       (storage_unit_ (env w))).1
      then [Call_RevertToHash (merkle_hash (body previous)) (block_number (body previous));
            Call_SetLastProcessedBlock (hash (body previous))]
      else [Call_RevertToHash (merkle_hash (body previous)) (block_number (body previous));
            Call_RevertToHash GENESIS_MERKLE_ROOT 0;
            Call_SetLastProcessedBlock GENESIS_DIGEST]
  | None =>
      [Call_RevertToHash GENESIS_MERKLE_ROOT 0;
       Call_SetLastProcessedBlock GENESIS_DIGEST]
  end.

(** ** Names of the states, for the log *)

Definition ToString (state : State) : string :=
  match state with
  | RELOAD_STATE => "Reloading State"
  | SYNCHRONIZING => "Synchronizing"
  | SYNCHRONIZED => "Synchronized"
  | PRE_EXEC_BLOCK_VALIDATION => "Pre Block Execution Validation"
  | WAIT_FOR_TRANSACTIONS => "Waiting for Transactions"
  | SCHEDULE_BLOCK_EXECUTION => "Schedule Block Execution"
  | WAIT_FOR_EXECUTION => "Waiting for Block Execution"
  | POST_EXEC_BLOCK_VALIDATION => "Post Block Execution Validation"
  | PACK_NEW_BLOCK => "Pack New Block"
  | EXECUTE_NEW_BLOCK => "Execution New Block"
  | WAIT_FOR_NEW_BLOCK_EXECUTION => "Waiting for New Block Execution"
  | PROOF_SEARCH => "Searching for Proof"
  | TRANSMIT_BLOCK => "Transmitting Block"
  | RESET => "Reset"
  end.

Definition ToString_ExecutionStatus (state : ExecutionStatus) : string :=
  match state with
  | IDLE => "Idle"
  | RUNNING => "Running"
  | STALLED => "Stalled"
  | ERROR => "Error"
  end.

(** ** The transition graph and the calls of each state

    The states a handler can return, and the calls it can make, as tables;
    the handlers are compared with them below. *)

Definition successors (s : State) : list State :=
  match s with
  | RELOAD_STATE => [RESET]
  | SYNCHRONIZING => [SYNCHRONIZING; SYNCHRONIZED; PRE_EXEC_BLOCK_VALIDATION; RESET]
  | SYNCHRONIZED => [SYNCHRONIZED; PACK_NEW_BLOCK; RESET]
  | PRE_EXEC_BLOCK_VALIDATION => [WAIT_FOR_TRANSACTIONS; RESET]
  | WAIT_FOR_TRANSACTIONS => [WAIT_FOR_TRANSACTIONS; SCHEDULE_BLOCK_EXECUTION]
  | SCHEDULE_BLOCK_EXECUTION => [WAIT_FOR_EXECUTION; RESET]
  | WAIT_FOR_EXECUTION => [WAIT_FOR_EXECUTION; POST_EXEC_BLOCK_VALIDATION; RESET]
  | POST_EXEC_BLOCK_VALIDATION => [RESET]
  | PACK_NEW_BLOCK => [EXECUTE_NEW_BLOCK; RESET]
  | EXECUTE_NEW_BLOCK => [WAIT_FOR_NEW_BLOCK_EXECUTION; RESET]
  | WAIT_FOR_NEW_BLOCK_EXECUTION => [WAIT_FOR_NEW_BLOCK_EXECUTION; PROOF_SEARCH; RESET]
  | PROOF_SEARCH => [PROOF_SEARCH; TRANSMIT_BLOCK]
  | TRANSMIT_BLOCK => [RESET]
  | RESET => [SYNCHRONIZING]
  end.

Definition callers (c : Call) : list State :=
  match c with
  | Call_AddBlock _ => [TRANSMIT_BLOCK]
  | Call_RemoveBlock _ => [PRE_EXEC_BLOCK_VALIDATION; POST_EXEC_BLOCK_VALIDATION]
  | Call_RevertToHash _ _ => [RELOAD_STATE; SYNCHRONIZING; POST_EXEC_BLOCK_VALIDATION]
  | Call_Commit _ => [POST_EXEC_BLOCK_VALIDATION; WAIT_FOR_NEW_BLOCK_EXECUTION]
  | Call_Execute _ => [SCHEDULE_BLOCK_EXECUTION; EXECUTE_NEW_BLOCK]
  | Call_SetLastProcessedBlock _ =>
      [RELOAD_STATE; SYNCHRONIZING; POST_EXEC_BLOCK_VALIDATION; PROOF_SEARCH]
  | Call_GenerateBlock _ _ _ => [PACK_NEW_BLOCK]
  | Call_Mine _ _ => [PROOF_SEARCH]
  | Call_OnBlock _ => [TRANSMIT_BLOCK]
  | Call_Update _ _ => [POST_EXEC_BLOCK_VALIDATION; TRANSMIT_BLOCK]
  | Call_Delay _ =>
      [WAIT_FOR_TRANSACTIONS; WAIT_FOR_EXECUTION; WAIT_FOR_NEW_BLOCK_EXECUTION]
  | Call_SetLastExecuted _ =>
      [RELOAD_STATE; POST_EXEC_BLOCK_VALIDATION; TRANSMIT_BLOCK]
  end.

(** The states in which the node works on a block of the chain, and those
    in which it produces one. *)
Definition consuming (s : State) : bool :=
  match s with
  | SYNCHRONIZING | SYNCHRONIZED | PRE_EXEC_BLOCK_VALIDATION | WAIT_FOR_TRANSACTIONS
  | SCHEDULE_BLOCK_EXECUTION | WAIT_FOR_EXECUTION | POST_EXEC_BLOCK_VALIDATION => true
  | _ => false
  end.

Definition producing (s : State) : bool := dereferences_next_block s.

(** At most one of the two block references is in use. *)
Definition block_references_exclusive (m : Machine) : Prop :=
  (producing (state m) -> current_block_ (self (world m)) = None)
  /\ (consuming (state m) -> next_block_ (self (world m)) = None).

(** [pending_txs_] is held in WAIT_FOR_TRANSACTIONS only, and is not empty
    once a tick has left it there. *)
Definition pending_txs_confined (m : Machine) : Prop :=
  match state m with
  | RELOAD_STATE | RESET => True
  | WAIT_FOR_TRANSACTIONS =>
      forall txs : gset string, pending_txs_ (self (world m)) = Some txs -> txs <> ∅
  | _ => pending_txs_ (self (world m)) = None
  end.

(** A walk along [previous_hash] links known to the chain: [b], then the
    blocks of [l], each the previous block of the one before. *)
Fixpoint walk_back (c : C) (b : Block) (l : list Block) : Prop :=
  match l with
  | [] => True
  | p :: l' =>
      previous_hash (body b) <> GENESIS_DIGEST
      /\ GetBlock c (previous_hash (body b)) = Some p
      /\ walk_back c p l'
  end.

(** The shape PRE_EXEC_BLOCK_VALIDATION demands of a block, as far as it
    depends on the block and the node's configuration alone. *)
Definition configured_shape (c : BlockCoordinator) (b : Block) : Prop :=
  String.length (previous_hash (body b)) = DIGEST_LENGTH_BYTES
  /\ (previous_hash (body b) <> GENESIS_DIGEST ->
      String.length (miner (body b)) = IDENTITY_LENGTH_BYTES
      /\ shl1u (log2_num_lanes (body b)) = Some (num_lanes_ c)
      /\ Z.of_nat (length (slices (body b))) = num_slices_ c).

(** Between validation and the end of execution the block worked on has
    that shape. *)
Definition validated (s : State) : bool :=
  match s with
  | WAIT_FOR_TRANSACTIONS | SCHEDULE_BLOCK_EXECUTION | WAIT_FOR_EXECUTION
  | POST_EXEC_BLOCK_VALIDATION => true
  | _ => false
  end.

Definition validated_block_shaped (m : Machine) : Prop :=
  validated (state m) ->
  exists b, current_block_ (self (world m)) = Some b
            /\ configured_shape (self (world m)) b.

(** The block SYNCHRONIZED starts to produce on top of [current]. *)
Definition new_block (c : BlockCoordinator) (current : Block) : Block :=
  {| body := {| hash := ""; previous_hash := hash (body current); merkle_hash := "";
                block_number := wrap64 (block_number (body current) + 1);
                miner := identity_ c; log2_num_lanes := 0; slices := [] |};
     nonce := 0;
     proof := {| target := block_difficulty_ c |} |}.

(** What the two handlers that wait for the execution manager do next. *)
Definition after_execution (done_ waiting : State) (s : ExecutionState) : State :=
  match s with
  | ES_IDLE => done_
  | ES_ACTIVE => waiting
  | ES_TRANSACTIONS_UNAVAILABLE | ES_EXECUTION_ABORTED | ES_EXECUTION_FAILED => RESET
  end.

End Coordinator.

Arguments Env : clear implicits.
Arguments World : clear implicits.
Arguments Machine : clear implicits.

(** ** In-memory collaborators

    Small implementations of the collaborators' interfaces, on which the
    handlers can be run: they provide the concrete chains, stores and
    executors of the examples below.  The general theorems do not depend on
    them.  Digests are padded to their 32 bytes and identities to their
    64. *)

Module Sim.

Fixpoint dots (n : nat) : string :=
  match n with
  | O => ""
  | Datatypes.S n' => String.append "." (dots n')
  end.

Definition pad (n : nat) (s : string) : string :=
  String.append s (dots (n - String.length s)).

Definition digest (s : string) : Digest := pad DIGEST_LENGTH_BYTES s.
Definition identity (s : string) : Identity := pad IDENTITY_LENGTH_BYTES s.

#[export] Instance constants : ChainConstants :=
  {| GENESIS_DIGEST := digest "genesis"; GENESIS_MERKLE_ROOT := digest "genesis-merkle" |}.

#[export] Instance block_digest : BlockDigest :=
  {| digest_of := fun b =>
       String.substring 0 DIGEST_LENGTH_BYTES
         (String.append "#" (previous_hash (body b))) |}.

(** *** Blocks: the genesis block [G] and two descendants *)

Definition tx (s : string) : TransactionSummary := {| transaction_hash := digest s |}.

Definition block (name parent merkle : string) (number lanes : Z)
    (content : list Slice) : Block :=
  {| body := {| hash := digest name; previous_hash := digest parent;
                merkle_hash := digest merkle; block_number := number;
                miner := identity "miner"; log2_num_lanes := lanes;
                slices := content |};
     nonce := 0; proof := {| target := 0 |} |}.

Definition G : Block := block "G" "genesis" "genesis-merkle" 0 2 [[]; []].
Definition B1 : Block := block "B1" "G" "state-1" 1 2 [[tx "t1"]; [tx "t2"; tx "t3"]].
Definition B2 : Block := block "B2" "B1" "state-2" 2 2 [[tx "t4"]; []].

(** *** Main chain *)

Record Chain := {
  blocks : gmap string Block;
  heaviest : Digest
}.

(** The walk from the block with digest [h] towards genesis: the block, its
    parent, its grandparent, ... as far as the store knows them. *)
Fixpoint ancestry (fuel : nat) (store : gmap string Block) (h : Digest) : list Block :=
  match fuel with
  | O => []
  | Datatypes.S fuel' =>
      match store !! h with
      | None => []
      | Some b => b :: ancestry fuel' store (previous_hash (body b))
      end
  end.

(** The prefix of a walk up to and including the first block that
    satisfies [stop]; [None] when no block of the walk does. *)
Fixpoint walk_until (stop : Block -> bool) (walk : list Block) : option (list Block) :=
  match walk with
  | [] => None
  | b :: rest =>
      if stop b then Some [b]
      else match walk_until stop rest with
           | Some path => Some (b :: path)
           | None => None
           end
  end.

(** Modelled from the spec: [MainChain::GetPathToCommonAncestor]
    (main_chain.cpp is not part of the sources).  On success the sequence
    is non-empty, its first element is the block at [from], its last is the
    common ancestor of [from] and [to], and the elements between are the
    walk from the one to the other.  The common ancestor is the first block
    on the walk back from [from] that is [to] or an ancestor of [to]; the
    call fails when either block is unknown or no such block exists. *)
Definition path_to_common_ancestor (store : gmap string Block) (from to : Digest)
  : option (list Block) :=
  let line := map (fun b => hash (body b)) (ancestry (size store) store to) in
  walk_until (fun b => bool_decide (hash (body b) ∈ line))
             (ancestry (size store) store from).

(** The store always answers with a heaviest block: the genesis block when
    it knows no better. *)
#[export] Instance chain : MainChain Chain := {|
  GetHeaviestBlock c := Some (default G (blocks c !! heaviest c));
  GetHeaviestBlockHash c := heaviest c;
  GetBlock c h := blocks c !! h;
  GetPathToCommonAncestor c from to := path_to_common_ancestor (blocks c) from to;
  AddBlock b c :=
    match blocks c !! hash (body b) with
    | Some _ => (Returned DUPLICATE, c)
    | None =>
        (Returned ADDED,
         {| blocks := <[hash (body b) := b]> (blocks c);
            heaviest := if decide (previous_hash (body b) = heaviest c)
                        then hash (body b) else heaviest c |})
    end;
  RemoveBlock h c := {| blocks := delete h (blocks c); heaviest := heaviest c |}
|}.

(** *** Storage unit *)

Record Storage := {
  current : Digest;
  commits : list (Digest * Z);
  transactions : gset string;
  (** an unhealthy store refuses to revert *)
  healthy : bool
}.

#[export] Instance storage : StorageUnitInterface Storage := {|
  CurrentHash s := current s;
  LastCommitHash s := match commits s with c :: _ => c.1 | [] => current s end;
  HashExists s h n := bool_decide ((h, n) ∈ commits s);
  HasTransaction s tx := bool_decide (tx ∈ transactions s);
  RevertToHash h n s :=
    if healthy s && bool_decide ((h, n) ∈ commits s)
    then (true, {| current := h; commits := commits s;
                   transactions := transactions s; healthy := healthy s |})
    else (false, s);
  Commit n s := {| current := current s; commits := (current s, n) :: commits s;
                   transactions := transactions s; healthy := healthy s |}
|}.

(** *** Execution manager *)

Record Executor := {
  last_block_hash : Digest;
  executor_state : ExecutionState;
  verdict : ScheduleStatus
}.

#[export] Instance executor : ExecutionManagerInterface Executor := {|
  Execute b x :=
    (verdict x,
     if decide (verdict x = SCHEDULED)
     then {| last_block_hash := hash b; executor_state := executor_state x;
             verdict := verdict x |}
     else x);
  GetState x := executor_state x;
  SetLastProcessedBlock h x :=
    {| last_block_hash := h; executor_state := executor_state x; verdict := verdict x |};
  LastProcessedBlock x := last_block_hash x
|}.

(** *** Packer, miner, sink and status cache *)

(** The packer fills every slice with the transactions it was given. *)
#[export] Instance packer : BlockPackerInterface Chain (list TransactionSummary) := {|
  GenerateBlock b lanes num c mempool :=
    (Returned tt,
     set_body (fun body =>
       {| hash := hash body; previous_hash := previous_hash body;
          merkle_hash := merkle_hash body; block_number := block_number body;
          miner := miner body; log2_num_lanes := Z.log2 lanes;
          slices := replicate (Z.to_nat num) mempool |}) b,
     mempool)
|}.

(** The miner finds a nonce exactly when its state says so. *)
#[export] Instance dummy_miner : MinerInterface bool := {|
  Mine b iterations lucky :=
    ((lucky, {| body := body b; nonce := nonce b + 1; proof := proof b |}), lucky)
|}.

#[export] Instance sink : BlockSinkInterface (list Block) := {|
  OnBlock b received := (Returned tt, received ++ [b])
|}.

#[export] Instance cache : TransactionStatusCache (gmap string TransactionStatus) := {|
  Update tx st m := <[tx := st]> m
|}.

Abbreviation SimEnv :=
  (Env Chain Storage Executor (list TransactionSummary) bool (list Block)
       (gmap string TransactionStatus)).
Abbreviation SimWorld :=
  (World Chain Storage Executor (list TransactionSummary) bool (list Block)
         (gmap string TransactionStatus)).
Abbreviation SimMachine :=
  (Machine Chain Storage Executor (list TransactionSummary) bool (list Block)
           (gmap string TransactionStatus)).

Definition store_of (l : list Block) : gmap string Block :=
  list_to_map (map (fun b => (hash (body b), b)) l).

Definition coordinator0 : BlockCoordinator :=
  {| current_block_ := None; next_block_ := None; pending_txs_ := None;
     last_executed_block_ := GENESIS_DIGEST; next_block_time_ := 0; stall_count_ := 0;
     mining_ := false; mining_enabled_ := false; block_difficulty_ := 1;
     num_lanes_ := 4; num_slices_ := 2; block_period_ := 1000;
     identity_ := identity "node";
     tx_wait_periodic_ := {| interval := TX_SYNC_NOTIFY_INTERVAL; last_fired := 0 |};
     exec_wait_periodic_ := {| interval := EXEC_NOTIFY_INTERVAL; last_fired := 0 |};
     syncing_periodic_ := {| interval := NOTIFY_INTERVAL; last_fired := 0 |} |}.

Definition storage0 : Storage :=
  {| current := GENESIS_MERKLE_ROOT; commits := [(GENESIS_MERKLE_ROOT, 0)];
     transactions := ∅; healthy := true |}.

Definition env0 : SimEnv :=
  {| chain_ := {| blocks := store_of [G; B1; B2]; heaviest := digest "B2" |};
     storage_unit_ := storage0;
     execution_manager_ := {| last_block_hash := GENESIS_DIGEST; executor_state := ES_IDLE;
                              verdict := SCHEDULED |};
     block_packer_ := [];
     miner_ := true;
     block_sink_ := [];
     status_cache_ := ∅;
     clock_now := 5000 |}.

Definition world0 : SimWorld := {| self := coordinator0; env := env0; calls := [] |}.

Definition with_chain (l : list Block) (tip : string) (e : SimEnv) : SimEnv :=
  set_chain {| blocks := store_of l; heaviest := digest tip |} e.

Definition with_storage (s : Storage) (e : SimEnv) : SimEnv := set_storage_unit s e.

Definition with_last_processed (h : Digest) (e : SimEnv) : SimEnv :=
  set_execution_manager
    {| last_block_hash := h; executor_state := ES_IDLE; verdict := SCHEDULED |} e.

Definition at_time (t : Z) (e : SimEnv) : SimEnv :=
  {| chain_ := chain_ e; storage_unit_ := storage_unit_ e;
     execution_manager_ := execution_manager_ e; block_packer_ := block_packer_ e;
     miner_ := miner_ e; block_sink_ := block_sink_ e; status_cache_ := status_cache_ e;
     clock_now := t |}.

Definition start (c : BlockCoordinator) (e : SimEnv) : SimMachine :=
  {| state := RELOAD_STATE; previous_state := RELOAD_STATE;
     world := {| self := c; env := e; calls := [] |} |}.

Definition at_state (s : State) (c : BlockCoordinator) (e : SimEnv) : SimMachine :=
  {| state := s; previous_state := s; world := {| self := c; env := e; calls := [] |} |}.

(** *** Scenario: a first block whose declared state is not what storage holds

    [G1] follows GENESIS_DIGEST, declares the state "declared-state" and
    eight lanes; the node is configured for four lanes and executing the
    block leaves storage at "actual-state". *)

Definition G1 : Block := block "G1" "genesis" "declared-state" 0 3 [[tx "t0"]; []].

Definition env_G1 : SimEnv :=
  with_chain [G1] "G1"
    (with_storage {| current := digest "actual-state"; commits := [];
                     transactions := {[digest "t0"]}; healthy := true |} env0).

(** The machine after RELOAD_STATE, RESET, SYNCHRONIZING,
    PRE_EXEC_BLOCK_VALIDATION, WAIT_FOR_TRANSACTIONS,
    SCHEDULE_BLOCK_EXECUTION and WAIT_FOR_EXECUTION: about to validate [G1]
    after its execution. *)
Definition machine_G1_executed : SimMachine := run 7 (start coordinator0 env_G1).

(** About to validate [G1] before its execution. *)
Definition world_G1_pre_exec : SimWorld :=
  {| self := set_current_block (Some G1) coordinator0; env := env_G1; calls := [] |}.

(** *** Scenario: a block with the wrong lane count

    [B1] declares four lanes ([log2_num_lanes] 2); [B1x] is the same block
    declaring eight. *)

Definition B1x : Block := block "B1x" "G" "state-1" 1 3 [[tx "t1"]; [tx "t2"; tx "t3"]].

Definition world_B1x_pre_exec : SimWorld :=
  {| self := set_current_block (Some B1x) coordinator0;
     env := with_chain [G; B1x] "B1x" env0; calls := [] |}.

Definition machine_B1x_pre_exec : SimMachine :=
  {| state := PRE_EXEC_BLOCK_VALIDATION; previous_state := SYNCHRONIZING;
     world := world_B1x_pre_exec |}.

(** *** Scenario: waiting for the transactions of [B1]; storage has "t1" *)

Definition world_B1_waiting : SimWorld :=
  {| self := set_current_block (Some B1) coordinator0;
     env := with_storage {| current := GENESIS_MERKLE_ROOT;
                            commits := [(GENESIS_MERKLE_ROOT, 0)];
                            transactions := {[digest "t1"]}; healthy := true |} env0;
     calls := [] |}.

(** *** Scenario: a reorganisation

    The heaviest block is [B2]; the last block processed is [G].  Storage
    knows the state of [G]. *)

Definition env_reorg (storage_healthy : bool) : SimEnv :=
  with_last_processed (digest "G")
    (with_storage {| current := digest "state-x";
                     commits := [(GENESIS_MERKLE_ROOT, 0)];
                     transactions := ∅; healthy := storage_healthy |} env0).

Definition world_reorg (storage_healthy : bool) : SimWorld :=
  {| self := coordinator0; env := env_reorg storage_healthy; calls := [] |}.

(** *** Scenario: mining on top of the genesis block *)

Definition miner0 : BlockCoordinator :=
  {| current_block_ := None; next_block_ := None; pending_txs_ := None;
     last_executed_block_ := GENESIS_DIGEST; next_block_time_ := 0; stall_count_ := 0;
     mining_ := true; mining_enabled_ := true; block_difficulty_ := 1;
     num_lanes_ := 4; num_slices_ := 2; block_period_ := 1000;
     identity_ := identity "node";
     tx_wait_periodic_ := {| interval := TX_SYNC_NOTIFY_INTERVAL; last_fired := 0 |};
     exec_wait_periodic_ := {| interval := EXEC_NOTIFY_INTERVAL; last_fired := 0 |};
     syncing_periodic_ := {| interval := NOTIFY_INTERVAL; last_fired := 0 |} |}.

(** Ten ticks take the node from RELOAD_STATE, through the execution of
    [G], to SYNCHRONIZED. *)
Definition machine_synchronised : SimMachine :=
  run 10 (start miner0 (with_chain [G] "G" env0)).

(** Time passes; five more ticks pack, execute and mine a block, up to
    TRANSMIT_BLOCK. *)
Definition machine_transmitting : SimMachine :=
  run 5 (interfere (at_time 7000 (env (world machine_synchronised))) machine_synchronised).

(** The block the node has mined by then. *)
Definition mined : Block :=
  {| body := {| hash := digest "#G"; previous_hash := digest "G";
                merkle_hash := GENESIS_MERKLE_ROOT; block_number := 1;
                miner := identity "node"; log2_num_lanes := 2; slices := [[]; []] |};
     nonce := 1; proof := {| target := 1 |} |}.

(** Between ticks, storage is left alone. *)
Definition storage_untouched (s : State) (e e' : SimEnv) : Prop :=
  storage_unit_ e' = storage_unit_ e.

(** *** Scenario: catching up on [B1] once the genesis block is processed *)

Definition env_B1 : SimEnv :=
  with_last_processed (digest "G")
    (with_chain [G; B1] "B1"
       (with_storage {| current := digest "state-x";
                        commits := [(GENESIS_MERKLE_ROOT, 0)];
                        transactions := {[digest "t1"; digest "t2"; digest "t3"]};
                        healthy := true |} env0)).

(** RELOAD_STATE, RESET, SYNCHRONIZING and PRE_EXEC_BLOCK_VALIDATION have
    run: [B1] waits for its transactions. *)
Definition machine_B1_validated : SimMachine := run 4 (start coordinator0 env_B1).

(** *** Scenario: nothing processed yet, the heaviest block is [B2] *)

(** RELOAD_STATE and RESET have run, and SYNCHRONIZING has stepped back
    from [B2] to [B1]. *)
Definition machine_walking : SimMachine := run 3 (start coordinator0 env0).

(** *** Scenario: the last processed block is the heaviest block [B2] *)

Definition world_aligned : SimWorld :=
  {| self := coordinator0; env := with_last_processed (digest "B2") env0; calls := [] |}.

(** *** Scenario: mining, step by step *)

(** The node is synchronised on [G] and the block period has passed. *)
Definition machine_ready : SimMachine :=
  interfere (at_time 7000 (env (world machine_synchronised))) machine_synchronised.

(** The candidate block once packed and executed, before it is mined. *)
Definition candidate : Block :=
  {| body := {| hash := ""; previous_hash := digest "G";
                merkle_hash := GENESIS_MERKLE_ROOT; block_number := 1;
                miner := identity "node"; log2_num_lanes := 2; slices := [[]; []] |};
     nonce := 0; proof := {| target := 1 |} |}.

(** *** Scenario: a block that declares 2^34 lanes

    The chain holds [G] and, on top of it, [B34] whose [log2_num_lanes]
    is 34.  A fresh node walks back to [G], executes it and turns to
    [B34]. *)

Definition B34 : Block := block "B34" "G" "state-1" 1 34 [[]; []].

Definition env_B34 : SimEnv := with_chain [G; B34] "B34" env0.

Definition machine_B34_pre_exec : SimMachine := run 11 (start coordinator0 env_B34).

(** *** Scenario: [B1] waits for two of its transactions *)

Definition machine_B1_waiting : SimMachine :=
  {| state := WAIT_FOR_TRANSACTIONS; previous_state := PRE_EXEC_BLOCK_VALIDATION;
     world := world_B1_waiting |}.

(** [G1] is about to be scheduled, respectively is being executed. *)
Definition machine_G1_scheduling : SimMachine := run 5 (start coordinator0 env_G1).
Definition machine_G1_executing : SimMachine := run 6 (start coordinator0 env_G1).

End Sim.

(** * Properties of the coordinator *)

Section Properties.

Context {C S X P Mi K T : Type}.
Context `{!ChainConstants, !BlockDigest}.
Context `{!MainChain C, !StorageUnitInterface S, !ExecutionManagerInterface X,
          !BlockPackerInterface C P, !MinerInterface Mi, !BlockSinkInterface K,
          !TransactionStatusCache T}.

Implicit Types (w : World C S X P Mi K T) (m : Machine C S X P Mi K T).
Implicit Types (e : Env C S X P Mi K T) (b : Block) (h : Digest).

(** Unfold the monad's plumbing, leaving the handler's own tests. *)
Ltac unmonad :=
  unfold bind, ret, fault, member, query, assign, invoke, deref, at_index,
    shift_left_1u, when, Delay, last_executed_block_Set, poll, reset in *;
  cbn [self env calls fst snd] in *.

Ltac unhelpers :=
  unfold ScheduleCurrentBlock, ScheduleNextBlock, ScheduleBlock, QueryExecutorStatus,
    UpdateNextBlockTime, chain_AddBlock, chain_RemoveBlock, storage_RevertToHash,
    storage_Commit, exec_Execute, exec_SetLastProcessedBlock, packer_GenerateBlock,
    miner_Mine, sink_OnBlock, cache_Update in *.

#[local] Arguments UpdateTxStatus : simpl never.

Ltac unhandlers :=
  unfold OnReloadState, OnSynchronizing, OnSynchronized, OnPreExecBlockValidation,
    OnWaitForTransactions, OnScheduleBlockExecution, OnWaitForExecution,
    OnPostExecBlockValidation, OnPackNewBlock, OnExecuteNewBlock,
    OnWaitForNewBlockExecution, OnProofSearch, OnTransmitBlock, OnReset in *.

(** Case analysis on a handler run, in program order: split on the first
    test that does not itself wait for an earlier one. *)
Ltac split_inner H :=
  match type of H with
  | context [match ?x with _ => _ end] =>
      lazymatch x with
      | context [match _ with _ => _ end] => fail
      | _ => destruct x eqn:?
      end
  end.

Lemma new_calls_app w self' env' l :
  new_calls w {| self := self'; env := env'; calls := calls w ++ l |} = l.
Proof. unfold new_calls; cbn. by rewrite drop_app_length. Qed.

Lemma new_calls_nil w self' env' :
  new_calls w {| self := self'; env := env'; calls := calls w |} = [].
Proof. unfold new_calls; cbn. by rewrite drop_all. Qed.

Lemma new_calls_refl w : new_calls w w = [].
Proof. unfold new_calls. by rewrite drop_all. Qed.

(** Turn the boolean tests collected along a run into propositions. *)
Ltac tests_to_props :=
  repeat match goal with
  | H : negb _ = true |- _ => apply negb_true_iff in H
  | H : negb _ = false |- _ => apply negb_false_iff in H
  | H : _ && _ = true |- _ => apply andb_true_iff in H as [? ?]
  | H : bool_decide _ = true |- _ => apply bool_decide_eq_true in H
  | H : bool_decide _ = false |- _ => apply bool_decide_eq_false in H
  end.

(** Forget how the tests were decided, keeping what they established. *)
Ltac forget_decisions :=
  repeat match goal with H : decide _ = _ |- _ => clear H end;
  repeat match goal with H : ~ (_ <> _) |- _ => apply dec_stable in H end.

(** ** RESET *)

(** C8. After the RESET handler has run, from whatever state it was
    entered: [current_block_], [next_block_] and [pending_txs_] are unset,
    [stall_count_] is 0, [next_block_time_] is now plus the block period,
    and the next state is SYNCHRONIZING.  Nothing else changes and no
    collaborator is called. *)
Theorem OnReset_clears_transient_fields previous w :
  exists w',
    handler RESET previous w = Ok SYNCHRONIZING w'
    /\ current_block_ (self w') = None
    /\ next_block_ (self w') = None
    /\ pending_txs_ (self w') = None
    /\ stall_count_ (self w') = 0
    /\ next_block_time_ (self w') = clock_now (env w) + block_period_ (self w)
    /\ last_executed_block_ (self w') = last_executed_block_ (self w)
    /\ env w' = env w
    /\ calls w' = calls w.
Proof.
  eexists. split; [reflexivity|]. cbn. repeat split; reflexivity.
Qed.

(** ** UpdateTxStatus *)

Lemma mark_executed_nil e : mark_executed [] e = e.
Proof. by destruct e. Qed.

Lemma mark_executed_app l1 l2 e :
  mark_executed (l1 ++ l2) e = mark_executed l2 (mark_executed l1 e).
Proof. unfold mark_executed. by rewrite foldl_app. Qed.

Lemma for_each_Update (slice : list TransactionSummary) w :
  for_each slice (fun tx => cache_Update (transaction_hash tx) EXECUTED) w
  = Ok tt {| self := self w;
             env := mark_executed (map transaction_hash slice) (env w);
             calls := calls w ++ map (fun tx => Call_Update tx EXECUTED)
                                     (map transaction_hash slice) |}.
Proof.
  revert w. induction slice as [|t slice IH]; intros w.
  - cbn. rewrite mark_executed_nil, app_nil_r. by destruct w.
  - cbn [for_each]. unfold bind at 1. unfold cache_Update at 1. unfold invoke.
    rewrite IH. cbn. by rewrite <- app_assoc.
Qed.

Lemma UpdateTxStatus_spec b w :
  UpdateTxStatus b w
  = Ok tt {| self := self w;
             env := mark_executed (block_txs b) (env w);
             calls := calls w ++ map (fun tx => Call_Update tx EXECUTED) (block_txs b) |}.
Proof.
  unfold UpdateTxStatus, block_txs.
  generalize (slices (body b)) as l. intros l. revert w.
  induction l as [|slice l IH]; intros w.
  - cbn. rewrite mark_executed_nil, app_nil_r. by destruct w.
  - cbn [for_each flat_map]. unfold bind at 1. rewrite for_each_Update, IH. cbn.
    by rewrite mark_executed_app, map_app, app_assoc.
Qed.

(** Run a handler symbolically: every branch of it, with the tests that
    lead there as hypotheses. *)
Ltac crunch H :=
  repeat first [ progress cbn in H
               | rewrite UpdateTxStatus_spec in H
               | split_inner H ];
  simplify_eq.

(** Membership in an explicit list of calls: an element of the list, or
    one of the status updates of [UpdateTxStatus]. *)
Ltac calls_in Hin :=
  repeat first
    [ apply elem_of_app in Hin as [Hin|Hin]
    | apply elem_of_cons in Hin as [Hin|Hin]
    | apply elem_of_nil in Hin
    | apply list_elem_of_In, in_map_iff in Hin as (? & Hin & _) ];
  try done; simplify_eq.

(** ** TRANSMIT_BLOCK *)

(** C9. In TRANSMIT_BLOCK the status-cache update of every transaction of
    [next_block_], the update of [last_executed_block_] to its hash and the
    call [block_sink_.OnBlock] are made exactly when [chain_.AddBlock]
    returned ADDED, in that order after the AddBlock call (and whether or
    not OnBlock then throws); on any other result, and when AddBlock
    throws, AddBlock is the only call and cache, sink and
    [last_executed_block_] are untouched.  The next state is RESET in every
    case. *)
Theorem OnTransmitBlock_effects_iff_added w nb :
  next_block_ (self w) = Some nb ->
  exists w',
    OnTransmitBlock w = Ok RESET w'
    /\ ((AddBlock nb (chain_ (env w))).1 = Returned ADDED ->
          calls w' = calls w ++ Call_AddBlock nb
                       :: map (fun tx => Call_Update tx EXECUTED) (block_txs nb)
                       ++ [Call_SetLastExecuted (hash (body nb)); Call_OnBlock nb]
          /\ last_executed_block_ (self w') = hash (body nb)
          /\ status_cache_ (env w')
             = foldl (fun t tx => Update tx EXECUTED t) (status_cache_ (env w)) (block_txs nb)
          /\ block_sink_ (env w') = (OnBlock nb (block_sink_ (env w))).2)
    /\ ((AddBlock nb (chain_ (env w))).1 <> Returned ADDED ->
          calls w' = calls w ++ [Call_AddBlock nb]
          /\ last_executed_block_ (self w') = last_executed_block_ (self w)
          /\ status_cache_ (env w') = status_cache_ (env w)
          /\ block_sink_ (env w') = block_sink_ (env w)).
Proof.
  intros Hnb. unfold OnTransmitBlock. unhelpers. unmonad. rewrite Hnb. cbn.
  destruct (AddBlock nb (chain_ (env w))) as [[[]|] c'] eqn:Hadd; cbn;
    try (eexists; split; [reflexivity|]; split; [congruence|];
         intros _; cbn; done).
  rewrite UpdateTxStatus_spec. cbn.
  eexists; split; [reflexivity|]. split; [|congruence].
  intros _. cbn. rewrite <- !app_assoc. done.
Qed.

(** ** WAIT_FOR_TRANSACTIONS *)

Lemma elem_of_block_txs b (tx : Digest) :
  tx ∈ block_txs b <->
  exists slice t, slice ∈ slices (body b) /\ t ∈ slice /\ transaction_hash t = tx.
Proof.
  unfold block_txs. rewrite !list_elem_of_In, in_flat_map. split.
  - intros (slice & Hs & Hin). apply in_map_iff in Hin as (t & Ht & Hin).
    exists slice, t. by rewrite !list_elem_of_In.
  - intros (slice & t & Hs & Ht & Heq). exists slice.
    apply list_elem_of_In in Hs. apply list_elem_of_In in Ht.
    split; [done|]. apply in_map_iff. eauto.
Qed.

(** C7. One tick of WAIT_FOR_TRANSACTIONS.  When [pending_txs_] is unset
    it is first filled with the transaction hash of every entry of every
    slice of [current_block_].  Every digest that storage has is then
    removed, so what remains is a subset of what was pending.  If nothing
    remains the set is released and the next state is
    SCHEDULE_BLOCK_EXECUTION, with no delay; otherwise the remaining set is
    kept, a delay of 200 ms is requested and the state stays
    WAIT_FOR_TRANSACTIONS. *)
Theorem OnWaitForTransactions_tick w b :
  current_block_ (self w) = Some b ->
  let txs : gset string :=
    match pending_txs_ (self w) with
    | Some p => p
    | None => list_to_set (block_txs b)
    end in
  let remaining : gset string :=
    filter (fun tx => HasTransaction (storage_unit_ (env w)) tx = false) txs in
  (pending_txs_ (self w) = None ->
     forall tx : Digest, tx ∈ txs <->
       exists slice t, slice ∈ slices (body b) /\ t ∈ slice /\ transaction_hash t = tx)
  /\ remaining ⊆ txs
  /\ (forall tx : Digest, tx ∈ remaining <->
        tx ∈ txs /\ HasTransaction (storage_unit_ (env w)) tx = false)
  /\ exists w',
       OnWaitForTransactions w
       = Ok (if decide (remaining = ∅)
             then SCHEDULE_BLOCK_EXECUTION else WAIT_FOR_TRANSACTIONS) w'
       /\ pending_txs_ (self w') = (if decide (remaining = ∅) then None else Some remaining)
       /\ calls w' = calls w ++ (if decide (remaining = ∅) then [] else [Call_Delay 200])
       /\ current_block_ (self w') = Some b
       /\ env w' = env w.
Proof.
  intros Hcb txs remaining.
  split; [|split; [|split]].
  - intros Hp tx. subst txs. rewrite Hp, elem_of_list_to_set.
    apply elem_of_block_txs.
  - subst remaining. intros tx Htx. by apply elem_of_filter in Htx as [_ ?].
  - subst remaining. intros tx. rewrite elem_of_filter. tauto.
  - assert (Hpending :
      match pending_txs_ (self w) with
      | Some p => Some p
      | None => Some (list_to_set (block_txs b))
      end = Some txs) by (subst txs; by destruct (pending_txs_ (self w))).
    unfold OnWaitForTransactions. unmonad.
    destruct (pending_txs_ (self w)) as [p|] eqn:Hp; cbn.
    + rewrite Hp. cbn. simplify_eq. fold remaining.
      destruct (decide (remaining = ∅)); cbn.
      * eexists; repeat split; cbn; [by rewrite app_nil_r | done].
      * eexists; repeat split; cbn; done.
    + rewrite Hcb. cbn. simplify_eq. fold remaining.
      destruct (decide (remaining = ∅)); cbn.
      * eexists; repeat split; cbn; [by rewrite app_nil_r | done].
      * eexists; repeat split; cbn; done.
Qed.

(** ** PRE_EXEC_BLOCK_VALIDATION *)

Lemma OnPreExecBlockValidation_rejects w b :
  current_block_ (self w) = Some b ->
  fails_pre_exec_check w b ->
  ~ shifts_out_of_range w b ->
  OnPreExecBlockValidation w
  = Ok RESET {| self := self w;
                env := set_chain (RemoveBlock (hash (body b)) (chain_ (env w))) (env w);
                calls := calls w ++ [Call_RemoveBlock (hash (body b))] |}.
Proof.
  intros Hcb Hfail Hshift.
  destruct (OnPreExecBlockValidation w) as [s' w'|f] eqn:Hrun.
  all: unfold fails_pre_exec_check, shifts_out_of_range in *.
  all: unhandlers; unhelpers; unmonad; rewrite Hcb in Hrun.
  all: crunch Hrun; tests_to_props; try done.
  all: exfalso; forget_decisions; naive_solver.
Qed.

Lemma OnPreExecBlockValidation_accepts w b :
  current_block_ (self w) = Some b ->
  ~ fails_pre_exec_check w b ->
  ~ shifts_out_of_range w b ->
  OnPreExecBlockValidation w
  = Ok WAIT_FOR_TRANSACTIONS
       {| self := set_tx_wait_periodic
                    (Reset (clock_now (env w)) (tx_wait_periodic_ (self w))) (self w);
          env := env w; calls := calls w |}.
Proof.
  intros Hcb Hok Hshift.
  destruct (OnPreExecBlockValidation w) as [s' w'|f] eqn:Hrun.
  all: unfold fails_pre_exec_check, shifts_out_of_range in *.
  all: unhandlers; unhelpers; unmonad; rewrite Hcb in Hrun.
  all: crunch Hrun; tests_to_props; try done.
  all: exfalso; forget_decisions.
  all: try (apply Hok; naive_solver).
  all: apply Hshift; naive_solver.
Qed.

(** The handler evaluates [1u << log2_num_lanes] as soon as the three
    tests before the lane test pass. *)
Lemma OnPreExecBlockValidation_undefined_shift w b :
  current_block_ (self w) = Some b ->
  shifts_out_of_range w b ->
  OnPreExecBlockValidation w = Crash UndefinedShift.
Proof.
  intros Hcb (Hgen & (p & Hp & Hn) & Hid & Hshl).
  unfold OnPreExecBlockValidation. unhelpers. unmonad.
  rewrite Hcb. cbn. rewrite bool_decide_eq_false_2 by done. cbn.
  rewrite Hp. cbn. rewrite decide_False by (intros Hne; by apply Hne).
  rewrite decide_False by (intros Hne; by apply Hne).
  by rewrite Hshl.
Qed.

(** C3, as the code has it.  A block whose [previous_hash] is not
    GENESIS_DIGEST, whose [log2_num_lanes] is below 32 and for which
    [1u << log2_num_lanes] is not the configured lane count is rejected:
    [chain_.RemoveBlock] is called with its hash, nothing else is called,
    and the next state is RESET.  For a [log2_num_lanes] of 32 or more the
    shift is undefined, and the handler evaluates it whenever the three
    tests before the lane test pass (previous block known, block number
    continuous, miner identity of 64 bytes): no rejection is promised
    there.  A block whose [previous_hash] is GENESIS_DIGEST is exempt from
    the lane check (as from the other checks against the previous block):
    whatever its [log2_num_lanes], if its [previous_hash] has 32 bytes it
    goes on to WAIT_FOR_TRANSACTIONS and is not removed. *)
Theorem lane_count_mismatch_rejected_unless_genesis w b :
  current_block_ (self w) = Some b ->
  (previous_hash (body b) <> GENESIS_DIGEST ->
   0 <= log2_num_lanes (body b) < 32 ->
   num_lanes_ (self w) <> Z.shiftl 1 (log2_num_lanes (body b)) ->
   exists w',
     OnPreExecBlockValidation w = Ok RESET w'
     /\ calls w' = calls w ++ [Call_RemoveBlock (hash (body b))]
     /\ chain_ (env w') = RemoveBlock (hash (body b)) (chain_ (env w)))
  /\ (shifts_out_of_range w b -> OnPreExecBlockValidation w = Crash UndefinedShift)
  /\ (previous_hash (body b) = GENESIS_DIGEST ->
      String.length (previous_hash (body b)) = DIGEST_LENGTH_BYTES ->
      exists w',
        OnPreExecBlockValidation w = Ok WAIT_FOR_TRANSACTIONS w'
        /\ calls w' = calls w
        /\ env w' = env w).
Proof.
  intros Hcb. split; [|split].
  - intros Hgen Hrange Hlanes.
    assert (Hshl : shl1u (log2_num_lanes (body b)) = Some (Z.shiftl 1 (log2_num_lanes (body b))))
      by (unfold shl1u; by rewrite decide_True).
    eexists. split.
    + apply (OnPreExecBlockValidation_rejects w b); [done| |].
      * left. split; [done|]. do 3 right. left. eauto.
      * intros (_ & _ & _ & Hnone). congruence.
    + done.
  - by apply OnPreExecBlockValidation_undefined_shift.
  - intros Hgen Hlen. eexists. split.
    + apply (OnPreExecBlockValidation_accepts w b); [done| |].
      * intros [[? _]|?]; congruence.
      * intros [? _]. congruence.
    + done.
Qed.

(** ** POST_EXEC_BLOCK_VALIDATION *)

Lemma OnPostExecBlockValidation_accepts w b :
  current_block_ (self w) = Some b ->
  ~ fails_post_exec_check w b ->
  OnPostExecBlockValidation w
  = Ok RESET
       {| self := set_last_executed_block (hash (body b)) (self w);
          env := set_storage_unit
                   (Commit (block_number (body b)) (storage_unit_ (env w)))
                   (mark_executed (block_txs b) (env w));
          calls := calls w ++ map (fun tx => Call_Update tx EXECUTED) (block_txs b)
                     ++ [Call_Commit (block_number (body b));
                         Call_SetLastExecuted (hash (body b))] |}.
Proof.
  intros Hcb Hok. unfold OnPostExecBlockValidation, fails_post_exec_check in *.
  unhelpers. unmonad. rewrite Hcb. cbn.
  assert (bool_decide (GENESIS_DIGEST <> previous_hash (body b))
          && bool_decide (CurrentHash (storage_unit_ (env w)) <> merkle_hash (body b))
          = false) as ->.
  { apply andb_false_iff. rewrite !bool_decide_eq_false.
    destruct (decide (GENESIS_DIGEST = previous_hash (body b))); [left|right]; tauto. }
  rewrite UpdateTxStatus_spec. cbn. by rewrite <- !app_assoc.
Qed.

Lemma OnPostExecBlockValidation_rejects w b :
  current_block_ (self w) = Some b ->
  fails_post_exec_check w b ->
  exists w',
    OnPostExecBlockValidation w = Ok RESET w'
    /\ self w' = self w
    /\ calls w' = calls w ++ recovery_calls w b ++ [Call_RemoveBlock (hash (body b))]
    /\ chain_ (env w') = RemoveBlock (hash (body b)) (chain_ (env w)).
Proof.
  intros Hcb [Hgen Hneq]. unfold OnPostExecBlockValidation, recovery_calls.
  unhelpers. unmonad. rewrite Hcb. cbn.
  rewrite !bool_decide_eq_true_2 by done. cbn.
  destruct (GetBlock _ _) as [p|]; cbn.
  - destruct (RevertToHash _ _ _) as [[] s']; cbn;
      (eexists; split; [reflexivity|]; cbn; split; [by destruct (self w)|]);
      by rewrite <- !app_assoc.
  - eexists; split; [reflexivity|]; cbn. split; [by destruct (self w)|].
    by rewrite <- !app_assoc.
Qed.

(** C2, as the code has it.  For a block whose [previous_hash] is
    GENESIS_DIGEST the Merkle comparison is not made: whatever
    [storage.CurrentHash()] is, the block is accepted (its transactions
    are marked EXECUTED, [storage.Commit(block_number)] is called,
    [last_executed_block_] becomes the block's hash, the chain is left
    alone) and the next state is RESET.  The recovery from an invalid
    block applies to a block whose [previous_hash] is not GENESIS_DIGEST
    and whose [merkle_hash] differs from [storage.CurrentHash()]: storage
    is reverted to the previous block, or to GENESIS_MERKLE_ROOT when the
    previous block is unknown or that revert fails (the execution manager
    is told the block reverted to); then [chain.RemoveBlock] is called with
    the block's hash; [last_executed_block_] is not changed; the next state
    is RESET. *)
Theorem post_exec_merkle_check_skipped_for_genesis w b :
  current_block_ (self w) = Some b ->
  (previous_hash (body b) = GENESIS_DIGEST ->
   exists w',
     OnPostExecBlockValidation w = Ok RESET w'
     /\ calls w' = calls w ++ map (fun tx => Call_Update tx EXECUTED) (block_txs b)
                    ++ [Call_Commit (block_number (body b));
                        Call_SetLastExecuted (hash (body b))]
     /\ last_executed_block_ (self w') = hash (body b)
     /\ chain_ (env w') = chain_ (env w)
     /\ storage_unit_ (env w') = Commit (block_number (body b)) (storage_unit_ (env w)))
  /\ (previous_hash (body b) <> GENESIS_DIGEST ->
      CurrentHash (storage_unit_ (env w)) <> merkle_hash (body b) ->
      exists w',
        OnPostExecBlockValidation w = Ok RESET w'
        /\ calls w' = calls w ++ recovery_calls w b ++ [Call_RemoveBlock (hash (body b))]
        /\ last_executed_block_ (self w') = last_executed_block_ (self w)
        /\ chain_ (env w') = RemoveBlock (hash (body b)) (chain_ (env w))).
Proof.
  intros Hcb. split.
  - intros Hgen. eexists. split.
    + apply (OnPostExecBlockValidation_accepts w b); [done|].
      intros [? _]. congruence.
    + cbn. done.
  - intros Hgen Hneq.
    destruct (OnPostExecBlockValidation_rejects w b) as (w' & Hrun & Hself & Hcalls & Hchain);
      [done|split; congruence|].
    exists w'. rewrite Hself. done.
Qed.

(** ** SYNCHRONIZING *)

(** C5, as the code has it.  In SYNCHRONIZING, when the last processed
    block is neither GENESIS_DIGEST nor the hash of the block worked on,
    and [GetPathToCommonAncestor] succeeds with a sequence whose last
    element is [ancestor] and whose last but one is [next]:
    - if storage does not have the ancestor's state, the execution manager
      is reset to GENESIS_DIGEST, storage is reverted to
      GENESIS_MERKLE_ROOT at block 0, and the next state is RESET;
    - otherwise storage is asked to revert to the ancestor's state; if that
      succeeds [current_block_] becomes [next] and the next state is
      PRE_EXEC_BLOCK_VALIDATION;
    - if that revert fails the next state is RESET and [current_block_]
      stays the block worked on. *)
Theorem OnSynchronizing_reorg w cur blocks ancestor next rest :
  block_to_synchronise w = Some cur ->
  LastProcessedBlock (execution_manager_ (env w)) <> GENESIS_DIGEST ->
  hash (body cur) <> LastProcessedBlock (execution_manager_ (env w)) ->
  GetPathToCommonAncestor (chain_ (env w)) (hash (body cur))
    (LastProcessedBlock (execution_manager_ (env w))) = Some blocks ->
  reverse blocks = ancestor :: next :: rest ->
  let known := HashExists (storage_unit_ (env w)) (merkle_hash (body ancestor))
                          (block_number (body ancestor)) in
  let revert := RevertToHash (merkle_hash (body ancestor)) (block_number (body ancestor))
                             (storage_unit_ (env w)) in
  (known = false ->
   exists w',
     OnSynchronizing w = Ok RESET w'
     /\ calls w' = calls w ++ [Call_SetLastProcessedBlock GENESIS_DIGEST;
                               Call_RevertToHash GENESIS_MERKLE_ROOT 0]
     /\ current_block_ (self w') = Some cur)
  /\ (known = true -> revert.1 = true ->
      exists w',
        OnSynchronizing w = Ok PRE_EXEC_BLOCK_VALIDATION w'
        /\ calls w' = calls w ++ [Call_RevertToHash (merkle_hash (body ancestor))
                                                    (block_number (body ancestor))]
        /\ storage_unit_ (env w') = revert.2
        /\ current_block_ (self w') = Some next)
  /\ (known = true -> revert.1 = false ->
      exists w',
        OnSynchronizing w = Ok RESET w'
        /\ calls w' = calls w ++ [Call_RevertToHash (merkle_hash (body ancestor))
                                                    (block_number (body ancestor))]
        /\ current_block_ (self w') = Some cur).
Proof.
  unfold block_to_synchronise. intros Hcur Hlpb Hneq Hpath Hrev. cbn zeta.
  split; [|split]; intros; destruct (OnSynchronizing w) as [s' w'|f] eqn:Hrun.
  all: unhandlers; unhelpers; unmonad; crunch Hrun; tests_to_props; simplify_eq.
  all: repeat match goal with
       | Hl : reverse _ !! _ = _ |- _ => rewrite Hrev in Hl; cbn in Hl
       end; simplify_eq.
  all: try congruence.
  all: eexists; split; [reflexivity|]; cbn; rewrite <- ?app_assoc; done.
Qed.


(** ** RemoveBlock *)

(** C4. In every tick, from every state: if [chain_.RemoveBlock] is called,
    the machine is in PRE_EXEC_BLOCK_VALIDATION or
    POST_EXEC_BLOCK_VALIDATION, the digest is the hash of [current_block_],
    and that block has just failed a check of the handler: one of the
    checks of PRE_EXEC_BLOCK_VALIDATION, or the Merkle comparison of
    POST_EXEC_BLOCK_VALIDATION.  No other handler calls RemoveBlock. *)
Theorem RemoveBlock_only_after_failed_validation m m' h :
  Tick m = Ticked m' ->
  Call_RemoveBlock h ∈ new_calls (world m) (world m') ->
  exists b,
    current_block_ (self (world m)) = Some b
    /\ h = hash (body b)
    /\ ((state m = PRE_EXEC_BLOCK_VALIDATION /\ fails_pre_exec_check (world m) b)
        \/ (state m = POST_EXEC_BLOCK_VALIDATION /\ fails_post_exec_check (world m) b)).
Proof.
  destruct m as [s p w]. unfold Tick. cbn.
  destruct (handler s p w) as [s' w'|] eqn:Hrun; [|done]. intros [= <-]. cbn.
  destruct s; cbn [handler] in Hrun; unhandlers; unhelpers; unmonad.
  all: crunch Hrun;
       rewrite <- ?app_assoc, ?new_calls_app, ?new_calls_nil, ?new_calls_refl;
       intros Hin; calls_in Hin.
  all: tests_to_props.
  all: eexists; split; [reflexivity|]; split; [reflexivity|].
  all: try (right; split; [done|]; by unfold fails_post_exec_check).
  all: left; split; [done|]; unfold fails_pre_exec_check; cbn.
  all: eauto 10.
Qed.

(** ** Runs *)

Lemma reachable_run rely n m : reachable rely m -> reachable rely (run n m).
Proof.
  intros Hm. induction n as [|n IH]; [done|].
  change (run (Datatypes.S n) m) with (tick_or_stay (run n m)).
  unfold tick_or_stay.
  destruct (Tick (run n m)) as [m'|f] eqn:Htick; [|exact IH].
  by apply (reachable_tick rely (run n m)).
Qed.

Lemma Tick_run m : ticks m = true -> Tick m = Ticked (run 1 m).
Proof. cbn. unfold ticks, tick_or_stay. by destruct (Tick m). Qed.

Lemma trigger_frame m :
  state (trigger m) = state m
  /\ current_block_ (self (world (trigger m))) = current_block_ (self (world m))
  /\ next_block_ (self (world (trigger m))) = next_block_ (self (world m))
  /\ last_executed_block_ (self (world (trigger m))) = last_executed_block_ (self (world m))
  /\ env (world (trigger m)) = env (world m)
  /\ calls (world (trigger m)) = calls (world m).
Proof.
  unfold trigger, TriggerBlockGeneration. unmonad.
  by destruct (mining_ (self (world m))).
Qed.

(** ** The optional block references *)

Section BlockReferences.

Variable rely : State -> Env C S X P Mi K T -> Env C S X P Mi K T -> Prop.
Hypothesis heaviest_block : forall c : C, is_Some (GetHeaviestBlock c).

Lemma block_references_start previous w :
  block_references_set {| state := RELOAD_STATE; previous_state := previous; world := w |}.
Proof. split; cbn; intros []. Qed.

Lemma block_references_interfere e m :
  block_references_set m -> block_references_set (interfere e m).
Proof. by intros [? ?]. Qed.

Lemma block_references_tick m m' :
  block_references_set m -> Tick m = Ticked m' -> block_references_set m'.
Proof.
  destruct m as [s p w]. unfold Tick, block_references_set. cbn.
  intros [Hcur Hnext].
  destruct (handler s p w) as [s' w'|] eqn:Hrun; [|done]. intros [= <-]. cbn.
  destruct s; cbn [handler] in Hrun; unhandlers; unhelpers; unmonad.
  all: cbn in Hcur, Hnext.
  all: crunch Hrun; cbn.
  all: split; intros Hs; try done; eauto.
  all: try (apply Hcur; done).
  all: try (apply Hnext; done).
  all: try (destruct (heaviest_block (chain_ (env w))) as [? ?]; congruence).
Qed.

Lemma block_references_no_null m :
  block_references_set m -> Tick m <> Faulted NullDereference.
Proof.
  destruct m as [s p w]. unfold Tick, block_references_set. cbn.
  intros [Hcur Hnext].
  destruct (handler s p w) as [s' w'|f] eqn:Hrun; [done|]. intros [= ->].
  destruct s; cbn [handler] in Hrun; unhandlers; unhelpers; unmonad.
  all: cbn in Hcur, Hnext.
  all: crunch Hrun.
  all: try (destruct Hcur as [? ?]; [done|congruence]).
  all: try (destruct Hnext as [? ?]; [done|congruence]).
  all: try (destruct (heaviest_block (chain_ (env w))) as [? ?]; congruence).
Qed.

Lemma block_references_trigger m :
  block_references_set m -> block_references_set (trigger m).
Proof.
  unfold block_references_set.
  destruct (trigger_frame m) as (-> & -> & -> & _). done.
Qed.

Lemma reachable_block_references m :
  reachable rely m -> block_references_set m.
Proof.
  induction 1 as [previous w|m m' _ IH Htick|m e _ IH _|m _ IH].
  - apply block_references_start.
  - by apply (block_references_tick m).
  - by apply block_references_interfere.
  - by apply block_references_trigger.
Qed.

(** C10. Provided [chain_.GetHeaviestBlock] always returns a block: in
    every machine reachable from RELOAD_STATE (whatever the collaborators
    do between the ticks, and whenever [TriggerBlockGeneration] is called)
    [current_block_] is set when the state is
    SYNCHRONIZED, PRE_EXEC_BLOCK_VALIDATION, WAIT_FOR_TRANSACTIONS,
    WAIT_FOR_EXECUTION or POST_EXEC_BLOCK_VALIDATION, [next_block_] is set
    when the state is PACK_NEW_BLOCK, EXECUTE_NEW_BLOCK,
    WAIT_FOR_NEW_BLOCK_EXECUTION, PROOF_SEARCH or TRANSMIT_BLOCK, and the
    next tick dereferences no null block reference. *)
Theorem block_references_set_when_dereferenced m :
  reachable rely m ->
  (dereferences_current_block (state m) -> is_Some (current_block_ (self (world m))))
  /\ (dereferences_next_block (state m) -> is_Some (next_block_ (self (world m))))
  /\ Tick m <> Faulted NullDereference.
Proof.
  intros Hreach. pose proof (reachable_block_references m Hreach) as Hinv.
  split; [|split].
  - intros Hs. apply Hinv. by apply orb_True; left.
  - apply Hinv.
  - by apply block_references_no_null.
Qed.

End BlockReferences.

(** ** last_executed_block_ and the state of storage *)

Section LastExecutedBlock.

Variable rely : State -> Env C S X P Mi K T -> Env C S X P Mi K T -> Prop.

(** What the proof needs of the collaborators: a successful revert leaves
    storage at the hash reverted to; a commit does not change the current
    hash; mining does not change the Merkle hash a block declares; and
    while the machine rests in PROOF_SEARCH or TRANSMIT_BLOCK (no execution
    is in flight) nothing else changes the current hash of storage. *)
Hypothesis revert_sets_hash : forall h n (s : S),
  (RevertToHash h n s).1 = true -> CurrentHash (RevertToHash h n s).2 = h.
Hypothesis commit_keeps_hash : forall n (s : S),
  CurrentHash (Commit n s) = CurrentHash s.
Hypothesis mine_keeps_merkle : forall b n (mi : Mi),
  merkle_hash (body (Mine b n mi).1.2) = merkle_hash (body b).
Hypothesis storage_quiet : forall s e e',
  s = PROOF_SEARCH \/ s = TRANSMIT_BLOCK ->
  rely s e e' ->
  CurrentHash (storage_unit_ e') = CurrentHash (storage_unit_ e).

Lemma candidate_declares_storage_tick m m' :
  candidate_declares_storage m -> Tick m = Ticked m' -> candidate_declares_storage m'.
Proof.
  destruct m as [s p w]. unfold Tick, candidate_declares_storage. cbn.
  intros Hinv.
  destruct (handler s p w) as [s' w'|] eqn:Hrun; [|done]. intros [= <-]. cbn.
  destruct s; cbn [handler] in Hrun; unhandlers; unhelpers; unmonad.
  all: crunch Hrun; cbn.
  all: intros [Hs|Hs]; try discriminate Hs.
  all: try (eexists; split; [reflexivity|]; cbn).
  all: rewrite ?commit_keeps_hash; try done.
  all: destruct Hinv as (nb & Hnb & Hm); [by left|]; simplify_eq.
  all: by rewrite mine_keeps_merkle.
Qed.

Lemma reachable_candidate_declares_storage m :
  reachable rely m -> candidate_declares_storage m.
Proof.
  induction 1 as [previous w|m m' _ IH Htick|m e _ IH Hrely|m _ IH].
  - intros [?|?]; discriminate.
  - by apply (candidate_declares_storage_tick m).
  - intros Hs. destruct (IH Hs) as (nb & Hnb & Hm). exists nb. split; [done|].
    cbn. by rewrite (storage_quiet _ _ _ Hs Hrely).
  - unfold candidate_declares_storage.
    destruct (trigger_frame m) as (-> & _ & -> & _ & -> & _). done.
Qed.

(** C1, as the code has it.  [last_executed_block_] is updated in
    RELOAD_STATE, POST_EXEC_BLOCK_VALIDATION and TRANSMIT_BLOCK only, each
    time to the hash of the block the handler works on; and right after
    the update made in RELOAD_STATE, in TRANSMIT_BLOCK, and in
    POST_EXEC_BLOCK_VALIDATION for a block whose [previous_hash] is not
    GENESIS_DIGEST, the current hash of storage is the [merkle_hash] that
    block declares.  (For a block whose [previous_hash] is GENESIS_DIGEST
    the POST_EXEC handler makes no comparison, and nothing is promised.) *)
Theorem last_executed_block_matches_storage m m' h :
  reachable rely m ->
  Tick m = Ticked m' ->
  Call_SetLastExecuted h ∈ new_calls (world m) (world m') ->
  last_executed_block_ (self (world m')) = h
  /\ exists b,
       hash (body b) = h
       /\ ((state m = RELOAD_STATE
            /\ current_block_ (self (world m')) = Some b
            /\ CurrentHash (storage_unit_ (env (world m'))) = merkle_hash (body b))
           \/ (state m = POST_EXEC_BLOCK_VALIDATION
               /\ current_block_ (self (world m)) = Some b
               /\ (previous_hash (body b) <> GENESIS_DIGEST ->
                   CurrentHash (storage_unit_ (env (world m'))) = merkle_hash (body b)))
           \/ (state m = TRANSMIT_BLOCK
               /\ next_block_ (self (world m)) = Some b
               /\ CurrentHash (storage_unit_ (env (world m'))) = merkle_hash (body b))).
Proof.
  intros Hreach. pose proof (reachable_candidate_declares_storage m Hreach) as Hinv.
  clear Hreach. revert Hinv.
  destruct m as [s p w]. unfold Tick, candidate_declares_storage. cbn.
  intros Hinv.
  destruct (handler s p w) as [s' w'|] eqn:Hrun; [|done]. intros [= <-]. cbn.
  destruct s; cbn [handler] in Hrun; unhandlers; unhelpers; unmonad.
  all: crunch Hrun;
       rewrite <- ?app_assoc, ?new_calls_app, ?new_calls_nil, ?new_calls_refl;
       intros Hin; calls_in Hin.
  all: cbn; split; [reflexivity|]; eexists; split; [reflexivity|].
  - left. repeat split; [done|]. by apply revert_sets_hash.
  - left. repeat split. by apply revert_sets_hash.
  - right; left. repeat split. intros Hgen. rewrite commit_keeps_hash.
    assert (~ GENESIS_DIGEST <> previous_hash (body b)
            \/ ~ CurrentHash (storage_unit_ (env w)) <> merkle_hash (body b)) as [Hb|Hb].
    { match goal with
      | Hb : _ && _ = false |- _ =>
          apply andb_false_iff in Hb; rewrite !bool_decide_eq_false in Hb; exact Hb
      end. }
    + destruct Hb. congruence.
    + by destruct (decide (CurrentHash (storage_unit_ (env w)) = merkle_hash (body b))).
  - right; right. repeat split.
    destruct Hinv as (nb & Hnb & Hm); [by right|]. by simplify_eq.
Qed.

End LastExecutedBlock.

(** * Further properties of the handlers *)

(** ** The names of the states *)

(** X1. No two states have the same name in the log, and no state is named
    "Unknown", the text [ToString] starts from. *)
Theorem ToString_injective (s1 s2 : State) :
  (ToString s1 = ToString s2 -> s1 = s2) /\ ToString s1 <> "Unknown".
Proof. split; [|by destruct s1]. by destruct s1, s2. Qed.

(** X2. The same holds of the names of the execution statuses. *)
Theorem ToString_ExecutionStatus_injective (s1 s2 : ExecutionStatus) :
  (ToString_ExecutionStatus s1 = ToString_ExecutionStatus s2 -> s1 = s2)
  /\ ToString_ExecutionStatus s1 <> "Unknown".
Proof. split; [|by destruct s1]. by destruct s1, s2. Qed.

(** ** The transition graph *)

(** X3. Every tick follows an edge of the transition graph, and records the
    state it left as the previous one.  In particular RELOAD_STATE,
    POST_EXEC_BLOCK_VALIDATION and TRANSMIT_BLOCK always lead to RESET,
    RESET always leads to SYNCHRONIZING, and WAIT_FOR_TRANSACTIONS and
    PROOF_SEARCH never lead to RESET. *)
Theorem Tick_follows_transition_graph m m' :
  Tick m = Ticked m' ->
  state m' ∈ successors (state m) /\ previous_state m' = state m.
Proof.
  destruct m as [s p w]. unfold Tick. cbn.
  destruct (handler s p w) as [s' w'|] eqn:Hrun; [|done]. intros [= <-]. cbn.
  split; [|done].
  destruct s; cbn [handler] in Hrun; unhandlers; unhelpers; unmonad.
  all: crunch Hrun; cbn; set_solver.
Qed.

(** X4. Every call a tick makes is one its state may make: the chain is
    added to in TRANSMIT_BLOCK only, storage is reverted in RELOAD_STATE,
    SYNCHRONIZING and POST_EXEC_BLOCK_VALIDATION only, blocks are executed
    from SCHEDULE_BLOCK_EXECUTION and EXECUTE_NEW_BLOCK only, and so on for
    each kind of call. *)
Theorem Tick_calls_within_footprint m m' c :
  Tick m = Ticked m' ->
  c ∈ new_calls (world m) (world m') ->
  state m ∈ callers c.
Proof.
  destruct m as [s p w]. unfold Tick. cbn.
  destruct (handler s p w) as [s' w'|] eqn:Hrun; [|done]. intros [= <-]. cbn.
  destruct s; cbn [handler] in Hrun; unhandlers; unhelpers; unmonad.
  all: crunch Hrun;
       rewrite <- ?app_assoc, ?new_calls_app, ?new_calls_nil, ?new_calls_refl;
       intros Hin; calls_in Hin; cbn; set_solver.
Qed.

(** ** Commit, Execute and Delay *)

(** X5. Storage is committed only once execution has completed: in
    POST_EXEC_BLOCK_VALIDATION, at the number of [current_block_] and only
    when that block passed the Merkle comparison (or is exempt from it); or
    in WAIT_FOR_NEW_BLOCK_EXECUTION, at the number of [next_block_] and
    only when the execution manager is idle, in which case the candidate
    block now declares the state storage held. *)
Theorem Commit_only_after_completed_execution m m' n :
  Tick m = Ticked m' ->
  Call_Commit n ∈ new_calls (world m) (world m') ->
  (state m = POST_EXEC_BLOCK_VALIDATION
   /\ exists b,
        current_block_ (self (world m)) = Some b
        /\ n = block_number (body b)
        /\ ~ fails_post_exec_check (world m) b)
  \/ (state m = WAIT_FOR_NEW_BLOCK_EXECUTION
      /\ GetState (execution_manager_ (env (world m))) = ES_IDLE
      /\ exists b,
           next_block_ (self (world m)) = Some b
           /\ n = block_number (body b)
           /\ next_block_ (self (world m'))
              = Some (set_body (with_merkle_hash
                                  (CurrentHash (storage_unit_ (env (world m))))) b)).
Proof.
  destruct m as [s p w]. unfold Tick. cbn.
  destruct (handler s p w) as [s' w'|] eqn:Hrun; [|done]. intros [= <-]. cbn.
  destruct s; cbn [handler] in Hrun; unhandlers; unhelpers; unmonad.
  all: crunch Hrun;
       rewrite <- ?app_assoc, ?new_calls_app, ?new_calls_nil, ?new_calls_refl;
       intros Hin; calls_in Hin.
  - left. split; [done|]. eexists. split; [done|]. split; [done|].
    unfold fails_post_exec_check. intros [Hgen Hneq].
    match goal with
    | Hb : _ && _ = false |- _ =>
        apply andb_false_iff in Hb; rewrite !bool_decide_eq_false in Hb; tauto
    end.
  - right. split; [done|]. split; [done|]. eexists. done.
Qed.

(** X6. A block is handed to the execution manager only from
    SCHEDULE_BLOCK_EXECUTION, and then it is the body of [current_block_],
    or from EXECUTE_NEW_BLOCK, and then it is the body of [next_block_];
    the machine goes on to wait for the execution exactly when the verdict
    is SCHEDULED, and to RESET on every other verdict. *)
Theorem Execute_only_when_scheduling m m' body0 :
  Tick m = Ticked m' ->
  Call_Execute body0 ∈ new_calls (world m) (world m') ->
  let verdict := (Execute body0 (execution_manager_ (env (world m)))).1 in
  (state m = SCHEDULE_BLOCK_EXECUTION
   /\ (exists b, current_block_ (self (world m)) = Some b /\ body0 = body b)
   /\ state m' = if decide (verdict = SCHEDULED) then WAIT_FOR_EXECUTION else RESET)
  \/ (state m = EXECUTE_NEW_BLOCK
      /\ (exists b, next_block_ (self (world m)) = Some b /\ body0 = body b)
      /\ state m' = if decide (verdict = SCHEDULED)
                    then WAIT_FOR_NEW_BLOCK_EXECUTION else RESET).
Proof.
  destruct m as [s p w]. unfold Tick. cbn.
  destruct (handler s p w) as [s' w'|] eqn:Hrun; [|done]. intros [= <-]. cbn.
  destruct s; cbn [handler] in Hrun; unhandlers; unhelpers; unmonad.
  all: crunch Hrun;
       rewrite <- ?app_assoc, ?new_calls_app, ?new_calls_nil, ?new_calls_refl;
       intros Hin; calls_in Hin.
  all: try (left; split; [done|]; split; [by eexists|]).
  all: try (right; split; [done|]; split; [by eexists|]).
  all: by match goal with Hd : decide _ = _ |- _ => rewrite Hd end.
Qed.

(** X7. A delay is requested exactly when a tick keeps the machine in one
    of its three waiting states: 200 ms in WAIT_FOR_TRANSACTIONS, 20 ms in
    WAIT_FOR_EXECUTION and WAIT_FOR_NEW_BLOCK_EXECUTION (where the
    execution manager is then active).  The delay is then the only
    recorded call of the tick: the handler reads its collaborators
    ([HasTransaction], [GetState]) but changes none.  The other states
    that can repeat (SYNCHRONIZING, SYNCHRONIZED, PROOF_SEARCH) never ask
    for a delay. *)
Theorem Delay_exactly_when_waiting m m' :
  Tick m = Ticked m' ->
  (forall ms, Call_Delay ms ∈ new_calls (world m) (world m') ->
     state m' = state m
     /\ ((state m = WAIT_FOR_TRANSACTIONS /\ ms = 200)
         \/ ((state m = WAIT_FOR_EXECUTION \/ state m = WAIT_FOR_NEW_BLOCK_EXECUTION)
             /\ ms = 20
             /\ GetState (execution_manager_ (env (world m))) = ES_ACTIVE)))
  /\ (state m ∈ [WAIT_FOR_TRANSACTIONS; WAIT_FOR_EXECUTION; WAIT_FOR_NEW_BLOCK_EXECUTION] ->
      state m' = state m ->
      exists ms, new_calls (world m) (world m') = [Call_Delay ms]).
Proof.
  destruct m as [s p w]. unfold Tick. cbn.
  destruct (handler s p w) as [s' w'|] eqn:Hrun; [|done]. intros [= <-]. cbn.
  destruct s; cbn [handler] in Hrun; unhandlers; unhelpers; unmonad.
  all: crunch Hrun;
       rewrite <- ?app_assoc, ?new_calls_app, ?new_calls_nil, ?new_calls_refl.
  all: split; [intros ms Hin; calls_in Hin|intros Hs Heq; try done].
  all: try (split; [done|]; tauto).
  all: try by eexists.
  all: exfalso; repeat (apply elem_of_cons in Hs as [Hs|Hs]; [discriminate Hs|]).
  all: by apply elem_of_nil in Hs.
Qed.

(** ** What the machine holds in which state *)

Lemma pending_txs_confined_tick m m' :
  pending_txs_confined m -> Tick m = Ticked m' -> pending_txs_confined m'.
Proof.
  destruct m as [s p w]. unfold Tick, pending_txs_confined. cbn.
  intros Hinv.
  destruct (handler s p w) as [s' w'|] eqn:Hrun; [|done]. intros [= <-]. cbn.
  destruct s; cbn [handler] in Hrun; unhandlers; unhelpers; unmonad.
  all: crunch Hrun; cbn; try done.
  all: intros txs Htxs; try congruence.
  all: by simplify_eq.
Qed.

(** X8. In every machine reachable from RELOAD_STATE, whatever its members
    held at the start: outside RELOAD_STATE, RESET and
    WAIT_FOR_TRANSACTIONS, [pending_txs_] is unset; and in
    WAIT_FOR_TRANSACTIONS a set that is held is not empty. *)
Theorem pending_txs_held_only_while_waiting rely m :
  reachable rely m -> pending_txs_confined m.
Proof.
  induction 1 as [previous w|m m' _ IH Htick|m e _ IH _|m _ IH].
  - done.
  - by apply (pending_txs_confined_tick m).
  - done.
  - unfold pending_txs_confined, trigger, TriggerBlockGeneration in *. unmonad.
    by destruct (mining_ (self (world m))).
Qed.

Lemma block_references_exclusive_tick m m' :
  block_references_exclusive m -> Tick m = Ticked m' -> block_references_exclusive m'.
Proof.
  destruct m as [s p w]. unfold Tick, block_references_exclusive. cbn.
  intros [Hcur Hnext].
  destruct (handler s p w) as [s' w'|] eqn:Hrun; [|done]. intros [= <-]. cbn.
  destruct s; cbn [handler] in Hrun; unhandlers; unhelpers; unmonad.
  all: cbn in Hcur, Hnext.
  all: crunch Hrun; cbn.
  all: split; intros Hs; try done; eauto.
Qed.

(** X9. In every machine reachable from RELOAD_STATE, whatever its members
    held at the start: while a block is produced (PACK_NEW_BLOCK to
    TRANSMIT_BLOCK) [current_block_] is unset, and while a block of the
    chain is worked on (SYNCHRONIZING to POST_EXEC_BLOCK_VALIDATION)
    [next_block_] is unset.  The two references are never in use together. *)
Theorem block_references_never_both_in_use rely m :
  reachable rely m ->
  (producing (state m) -> current_block_ (self (world m)) = None)
  /\ (consuming (state m) -> next_block_ (self (world m)) = None).
Proof.
  induction 1 as [previous w|m m' _ IH Htick|m e _ IH _|m _ IH].
  - by split.
  - by apply (block_references_exclusive_tick m).
  - done.
  - destruct (trigger_frame m) as (-> & -> & -> & _). done.
Qed.

(** ** The only fault *)

Section OnlyFault.

Variable rely : State -> Env C S X P Mi K T -> Env C S X P Mi K T -> Prop.
Hypothesis heaviest_block : forall c : C, is_Some (GetHeaviestBlock c).

(** X10. The three operations of the handlers that C++ leaves undefined
    on some operands (dereferencing a block reference, reading an element
    of the ancestor path, shifting by [log2_num_lanes]), with every call on
    a collaborator taken to return and provided [chain_.GetHeaviestBlock]
    always returns a block.  Among these a tick of a machine reachable
    from RELOAD_STATE goes wrong in two places only.  In
    SYNCHRONIZING, when the last processed block is neither GENESIS_DIGEST
    nor the block worked on and the path to their common ancestor is found
    but has fewer than two blocks, the handler reads past its end.  In
    PRE_EXEC_BLOCK_VALIDATION, when the block worked on does not follow
    GENESIS_DIGEST, passes the three tests before the lane test and has a
    [log2_num_lanes] of 32 or more, the handler shifts a 32-bit value by
    that count.  No reachable tick dereferences a null block reference. *)
Theorem Tick_faults_in_two_places_only m f :
  reachable rely m ->
  Tick m = Faulted f ->
  (f = OutOfRange
   /\ state m = SYNCHRONIZING
   /\ exists cur blocks,
        block_to_synchronise (world m) = Some cur
        /\ LastProcessedBlock (execution_manager_ (env (world m))) <> GENESIS_DIGEST
        /\ hash (body cur) <> LastProcessedBlock (execution_manager_ (env (world m)))
        /\ GetPathToCommonAncestor (chain_ (env (world m))) (hash (body cur))
             (LastProcessedBlock (execution_manager_ (env (world m)))) = Some blocks
        /\ (length blocks < 2)%nat)
  \/ (f = UndefinedShift
      /\ state m = PRE_EXEC_BLOCK_VALIDATION
      /\ exists b,
           current_block_ (self (world m)) = Some b
           /\ shifts_out_of_range (world m) b).
Proof.
  intros Hreach Htick.
  pose proof (reachable_block_references rely m Hreach) as Hrefs.
  pose proof (block_references_no_null heaviest_block m Hrefs) as Hnull.
  destruct f; [done| |]; clear Hnull Hrefs Hreach; [left|right]; (split; [done|]).
  all: revert Htick; destruct m as [s p w];
       unfold Tick, block_to_synchronise, shifts_out_of_range; cbn.
  all: destruct (handler s p w) as [s' w'|f] eqn:Hrun; [done|]; intros [= ->].
  all: destruct s; cbn [handler] in Hrun; unhandlers; unhelpers; unmonad.
  all: crunch Hrun.
  all: split; [done|]; tests_to_props; forget_decisions.
  all: try match goal with
       | Hl : reverse ?l !! ?i = None |- _ =>
           apply lookup_ge_None in Hl; rewrite length_reverse in Hl
       end.
  all: try (eexists _, _; repeat split; try done; try congruence; try lia;
            try (destruct (current_block_ (self w)); simplify_eq; done); fail).
  all: eexists; split; [reflexivity|]; eauto 10.
Qed.

End OnlyFault.

(** ** SYNCHRONIZING without a reorganisation *)

Lemma run_succ_r n m : run (Datatypes.S n) m = run n (tick_or_stay m).
Proof. unfold run. apply Nat.iter_succ_r. Qed.

Lemma last_cons {A} (p : A) (l : list A) (d : A) :
  List.last (p :: l) d = List.last l p.
Proof.
  revert p d. induction l as [|x l IH]; intros p d; [done|].
  change (List.last (p :: x :: l) d) with (List.last (x :: l) d).
  by rewrite (IH x d), (IH x p).
Qed.

(** X11. While the execution manager has processed nothing, SYNCHRONIZING
    walks back along the chain, one block a tick.  The walk only reads the
    collaborators ([LastCommitHash], [CurrentHash], [LastProcessedBlock],
    [GetBlock]): no state-changing call is made and the collaborators are
    as they were.  From [b], after as many ticks as there are known
    ancestors in the walk the machine is still in SYNCHRONIZING and works
    on the last of them; if that block follows GENESIS_DIGEST the next
    tick starts its validation. *)
Theorem synchronizing_walks_back m b l :
  state m = SYNCHRONIZING ->
  current_block_ (self (world m)) = Some b ->
  LastProcessedBlock (execution_manager_ (env (world m))) = GENESIS_DIGEST ->
  walk_back (chain_ (env (world m))) b l ->
  state (run (length l) m) = SYNCHRONIZING
  /\ current_block_ (self (world (run (length l) m))) = Some (List.last l b)
  /\ env (world (run (length l) m)) = env (world m)
  /\ calls (world (run (length l) m)) = calls (world m)
  /\ (previous_hash (body (List.last l b)) = GENESIS_DIGEST ->
      state (run (Datatypes.S (length l)) m) = PRE_EXEC_BLOCK_VALIDATION
      /\ current_block_ (self (world (run (Datatypes.S (length l)) m)))
         = Some (List.last l b)).
Proof.
  revert m b. induction l as [|p l IH]; intros m b Hs Hcb Hlpb Hwalk.
  - cbn [length List.last]. change (run 0 m) with m.
    do 4 (split; [done|]).
    intros Hgen. change (run 1 m) with (tick_or_stay m).
    destruct m as [s q w]. cbn in Hs, Hcb, Hlpb. subst s.
    unfold tick_or_stay, Tick. cbn [state previous_state world handler].
    destruct (OnSynchronizing w) as [s' w'|f] eqn:Hrun.
    all: unhandlers; unmonad; crunch Hrun; cbn; try congruence.
    done.
  - destruct Hwalk as (Hgen & Hprev & Hwalk).
    assert (Hstep : state (tick_or_stay m) = SYNCHRONIZING
                    /\ current_block_ (self (world (tick_or_stay m))) = Some p
                    /\ env (world (tick_or_stay m)) = env (world m)
                    /\ calls (world (tick_or_stay m)) = calls (world m)).
    { destruct m as [s q w]. cbn in Hs, Hcb, Hlpb, Hprev. subst s.
      unfold tick_or_stay, Tick. cbn [state previous_state world handler].
      destruct (OnSynchronizing w) as [s' w'|f] eqn:Hrun.
      all: unhandlers; unmonad; crunch Hrun; cbn; try congruence.
      all: repeat split; congruence. }
    destruct Hstep as (Hs' & Hcb' & Henv' & Hcalls').
    rewrite <- Henv' in Hlpb, Hwalk.
    destruct (IH (tick_or_stay m) p Hs' Hcb' Hlpb Hwalk) as (H1 & H2 & H3 & H4 & H5).
    cbn [length]. rewrite !run_succ_r.
    rewrite (last_cons p l b). rewrite run_succ_r in H5.
    split; [done|]. split; [done|]. split; [congruence|]. split; [congruence|done].
Qed.

(** X12. The other outcomes of SYNCHRONIZING when no reorganisation is
    under way: when the execution manager has processed nothing and the
    previous block of the block worked on is unknown to the chain, RESET;
    when the block worked on is the last processed block, SYNCHRONIZED,
    with that block kept.  In both cases the handler only reads the chain,
    storage and the execution manager: no state-changing call is made and
    the collaborators are as they were. *)
Theorem OnSynchronizing_without_reorg w b :
  block_to_synchronise w = Some b ->
  (LastProcessedBlock (execution_manager_ (env w)) = GENESIS_DIGEST ->
   previous_hash (body b) <> GENESIS_DIGEST ->
   GetBlock (chain_ (env w)) (previous_hash (body b)) = None ->
   exists w', OnSynchronizing w = Ok RESET w' /\ calls w' = calls w /\ env w' = env w)
  /\ (LastProcessedBlock (execution_manager_ (env w)) <> GENESIS_DIGEST ->
      LastProcessedBlock (execution_manager_ (env w)) = hash (body b) ->
      exists w',
        OnSynchronizing w = Ok SYNCHRONIZED w'
        /\ current_block_ (self w') = Some b
        /\ calls w' = calls w /\ env w' = env w).
Proof.
  unfold block_to_synchronise. intros Hcur.
  split; intros; destruct (OnSynchronizing w) as [s' w'|f] eqn:Hrun.
  all: unhandlers; unhelpers; unmonad; crunch Hrun; tests_to_props; simplify_eq.
  all: try congruence.
  all: eexists; split; [reflexivity|]; cbn; done.
Qed.

(** ** SYNCHRONIZED *)

(** X13. SYNCHRONIZED, for a node that works on [b].  A heaviest block
    other than [b] sends the machine to RESET, whatever the mining flags.
    Otherwise, with both mining flags set and the next block time reached,
    a fresh block is started on top of [b] (its previous hash is the hash
    of [b], its number the number of [b] plus one on 64 bits, its miner the
    node's identity, its proof target the configured difficulty),
    [current_block_] is released and the next state is PACK_NEW_BLOCK;
    else the machine stays in SYNCHRONIZED and keeps [b].  The handler
    reads the chain ([GetHeaviestBlockHash]) and nothing more: no
    state-changing call is made and the collaborators are as they were. *)
Theorem OnSynchronized_outcomes current previous w b :
  current_block_ (self w) = Some b ->
  let ready := mining_ (self w) && mining_enabled_ (self w)
               && (next_block_time_ (self w) <=? clock_now (env w)) in
  (GetHeaviestBlockHash (chain_ (env w)) <> hash (body b) ->
   exists w',
     OnSynchronized current previous w = Ok RESET w'
     /\ current_block_ (self w') = Some b
     /\ next_block_ (self w') = next_block_ (self w)
     /\ calls w' = calls w /\ env w' = env w)
  /\ (GetHeaviestBlockHash (chain_ (env w)) = hash (body b) -> ready = true ->
      exists w',
        OnSynchronized current previous w = Ok PACK_NEW_BLOCK w'
        /\ current_block_ (self w') = None
        /\ next_block_ (self w') = Some (new_block (self w) b)
        /\ calls w' = calls w /\ env w' = env w)
  /\ (GetHeaviestBlockHash (chain_ (env w)) = hash (body b) -> ready = false ->
      exists w',
        OnSynchronized current previous w = Ok SYNCHRONIZED w'
        /\ current_block_ (self w') = Some b
        /\ next_block_ (self w') = next_block_ (self w)
        /\ calls w' = calls w /\ env w' = env w).
Proof.
  intros Hcb. cbn zeta.
  split; [|split]; intros; destruct (OnSynchronized current previous w) as [s' w'|f] eqn:Hrun.
  all: unhandlers; unhelpers; unmonad; crunch Hrun; tests_to_props; simplify_eq.
  all: try congruence.
  all: try match goal with Hn : ~ ?Q, Hq : ?Q |- _ => destruct (Hn Hq) end.
  all: eexists; split; [reflexivity|]; cbn; done.
Qed.

(** X14. [TriggerBlockGeneration] makes a mining node produce at once: if
    [mining_] and [mining_enabled_] are set and the node is synchronised on
    the heaviest block [b], then after the trigger the next tick of
    SYNCHRONIZED starts a block on top of [b], whatever the next block time
    was.  On a node with [mining_] unset the trigger changes nothing. *)
Theorem trigger_starts_block_generation m b :
  state m = SYNCHRONIZED ->
  current_block_ (self (world m)) = Some b ->
  GetHeaviestBlockHash (chain_ (env (world m))) = hash (body b) ->
  mining_enabled_ (self (world m)) = true ->
  (mining_ (self (world m)) = true ->
   exists m',
     Tick (trigger m) = Ticked m'
     /\ state m' = PACK_NEW_BLOCK
     /\ next_block_ (self (world m')) = Some (new_block (self (world m)) b)
     /\ current_block_ (self (world m')) = None)
  /\ (mining_ (self (world m)) = false -> trigger m = m).
Proof.
  destruct m as [s q w]. cbn. intros -> Hcb Hheaviest Henabled.
  unfold trigger, TriggerBlockGeneration. unmonad. cbn.
  split; intros Hmining; rewrite Hmining; cbn.
  - unfold Tick. cbn [state previous_state world handler].
    match goal with |- context [OnSynchronized ?c ?p ?w0] =>
      destruct (OnSynchronized c p w0) as [s' w'|f] eqn:Hrun end.
    all: unhandlers; unhelpers; unmonad; crunch Hrun; tests_to_props; simplify_eq.
    all: try congruence.
    all: try match goal with Hn : ~ ?Q, Hq : ?Q |- _ => destruct (Hn Hq) end.
    + eexists. split; [reflexivity|]. cbn. done.
    + exfalso.
      match goal with Hf : _ && _ = false |- _ => rewrite Hmining, Henabled in Hf; cbn in Hf;
        apply Z.leb_gt in Hf; lia end.
  - by destruct w.
Qed.

(** ** RELOAD_STATE *)

(** X15. RELOAD_STATE, for the block [b] it works on ([current_block_], or
    the heaviest block when that is unset), always goes to RESET with [b]
    as current block.  If [b] follows GENESIS_DIGEST no state-changing call
    is made (the chain is read for the heaviest block when
    [current_block_] is unset) and the collaborators are as they were.
    Otherwise storage is asked to revert to the state of [b]; only when
    that succeeds is the execution manager told that [b] was the last block
    processed and [last_executed_block_] set to its hash: after a refused
    revert both are as they were. *)
Theorem OnReloadState_outcomes w b :
  block_to_synchronise w = Some b ->
  let revert := RevertToHash (merkle_hash (body b)) (block_number (body b))
                             (storage_unit_ (env w)) in
  exists w',
    OnReloadState w = Ok RESET w'
    /\ current_block_ (self w') = Some b
    /\ (previous_hash (body b) = GENESIS_DIGEST ->
        calls w' = calls w /\ env w' = env w
        /\ last_executed_block_ (self w') = last_executed_block_ (self w))
    /\ (previous_hash (body b) <> GENESIS_DIGEST -> revert.1 = false ->
        calls w' = calls w ++ [Call_RevertToHash (merkle_hash (body b))
                                                 (block_number (body b))]
        /\ execution_manager_ (env w') = execution_manager_ (env w)
        /\ last_executed_block_ (self w') = last_executed_block_ (self w))
    /\ (previous_hash (body b) <> GENESIS_DIGEST -> revert.1 = true ->
        calls w' = calls w ++ [Call_RevertToHash (merkle_hash (body b))
                                                 (block_number (body b));
                               Call_SetLastProcessedBlock (hash (body b));
                               Call_SetLastExecuted (hash (body b))]
        /\ storage_unit_ (env w') = revert.2
        /\ execution_manager_ (env w')
           = SetLastProcessedBlock (hash (body b)) (execution_manager_ (env w))
        /\ last_executed_block_ (self w') = hash (body b)).
Proof.
  unfold block_to_synchronise. intros Hcur. cbn zeta.
  destruct (OnReloadState w) as [s' w'|f] eqn:Hrun.
  all: unhandlers; unhelpers; unmonad; crunch Hrun; tests_to_props; simplify_eq.
  all: eexists; split; [reflexivity|]; cbn; rewrite <- ?app_assoc.
  all: split; [congruence|].
  all: repeat split; intros; try done; try congruence.
  all: try match goal with Hn : ~ ?Q, Hq : ?Q |- _ => destruct (Hn Hq) end.
Qed.

(** ** Waiting for the execution manager *)

(** X16. The two handlers that wait for an execution choose the next
    state from [execution_manager_.GetState()] alone: idle, the machine
    moves on (to POST_EXEC_BLOCK_VALIDATION, respectively PROOF_SEARCH);
    active, it stays; transactions unavailable, execution aborted or
    failed, it goes to RESET.  On the way to RESET that read is the only
    call: no state-changing call is made and the collaborators are as they
    were, so the coordinator neither aborts nor retries the execution, and
    does not revert storage. *)
Theorem waiting_follows_execution_state m m' :
  Tick m = Ticked m' ->
  let status := GetState (execution_manager_ (env (world m))) in
  (state m = WAIT_FOR_EXECUTION ->
   state m' = after_execution POST_EXEC_BLOCK_VALIDATION WAIT_FOR_EXECUTION status)
  /\ (state m = WAIT_FOR_NEW_BLOCK_EXECUTION ->
      state m' = after_execution PROOF_SEARCH WAIT_FOR_NEW_BLOCK_EXECUTION status)
  /\ (state m = WAIT_FOR_EXECUTION \/ state m = WAIT_FOR_NEW_BLOCK_EXECUTION ->
      state m' = RESET ->
      new_calls (world m) (world m') = [] /\ env (world m') = env (world m)).
Proof.
  destruct m as [s p w]. unfold Tick. cbn.
  destruct (handler s p w) as [s' w'|] eqn:Hrun; [|done]. intros [= <-]. cbn.
  split; [|split]; try intros [Hs|Hs]; try intros Hs; subst s; try intros Heq.
  all: cbn [handler] in Hrun; unhandlers; unhelpers; unmonad.
  all: crunch Hrun;
       rewrite <- ?app_assoc, ?new_calls_app, ?new_calls_nil, ?new_calls_refl.
  all: try done.
  all: match goal with Hst : GetState _ = _ |- _ => by rewrite Hst end.
Qed.

(** ** Scheduling *)

(** X17. SCHEDULE_BLOCK_EXECUTION and EXECUTE_NEW_BLOCK test the block
    reference before they use it: for every value of the members they
    return a next state, and with the reference unset that state is RESET
    and the execution manager is not called. *)
Theorem scheduling_tests_block_reference w :
  (exists next w', OnScheduleBlockExecution w = Ok next w'
     /\ (current_block_ (self w) = None ->
         next = RESET /\ calls w' = calls w /\ env w' = env w))
  /\ (exists next w', OnExecuteNewBlock w = Ok next w'
        /\ (next_block_ (self w) = None ->
            next = RESET /\ calls w' = calls w /\ env w' = env w)).
Proof.
  split.
  - destruct (OnScheduleBlockExecution w) as [s' w'|f] eqn:Hrun.
    all: unhandlers; unhelpers; unmonad; crunch Hrun.
    all: eexists _, _; split; [reflexivity|]; intros Hnone; by simplify_eq.
  - destruct (OnExecuteNewBlock w) as [s' w'|f] eqn:Hrun.
    all: unhandlers; unhelpers; unmonad; crunch Hrun.
    all: eexists _, _; split; [reflexivity|]; intros Hnone; by simplify_eq.
Qed.

(** ** Producing a block *)

(** X18. PACK_NEW_BLOCK hands the candidate block to the packer, by
    reference, with the configured lane and slice counts, and the
    candidate is afterwards the block as the packer left it, whether the
    packer returned or threw.  When the packer returns, the next block
    time is put one block period after now and the next state is
    EXECUTE_NEW_BLOCK; when it throws, the next state is RESET and the next
    block time has not changed. *)
Theorem OnPackNewBlock_outcomes w nb :
  next_block_ (self w) = Some nb ->
  let packed := GenerateBlock nb (num_lanes_ (self w)) (num_slices_ (self w))
                              (chain_ (env w)) (block_packer_ (env w)) in
  exists w',
    OnPackNewBlock w
    = Ok (match packed.1.1 with Returned _ => EXECUTE_NEW_BLOCK | Thrown => RESET end) w'
    /\ calls w' = calls w ++ [Call_GenerateBlock nb (num_lanes_ (self w))
                                                 (num_slices_ (self w))]
    /\ block_packer_ (env w') = packed.2
    /\ next_block_ (self w') = Some packed.1.2
    /\ current_block_ (self w') = current_block_ (self w)
    /\ next_block_time_ (self w')
       = match packed.1.1 with
         | Returned _ => clock_now (env w) + block_period_ (self w)
         | Thrown => next_block_time_ (self w)
         end.
Proof.
  intros Hnb. cbn zeta.
  destruct (OnPackNewBlock w) as [s' w'|f] eqn:Hrun.
  all: unhandlers; unhelpers; unmonad; crunch Hrun.
  all: match goal with Hp : (GenerateBlock _ _ _ _ _).1.1 = _ |- _ => rewrite Hp end.
  all: eexists; split; [reflexivity|]; cbn; done.
Qed.

(** X19. PROOF_SEARCH gives the miner the candidate block and a budget of
    100 attempts, and keeps the block as the miner leaves it.  On success
    the block's hash is recomputed from the mined block, the execution
    manager is told that hash as the last block processed and the next
    state is TRANSMIT_BLOCK; on failure nothing else is called and the
    search goes on from the block the miner left.  The chain, storage and
    [last_executed_block_] are not touched. *)
Theorem OnProofSearch_outcomes w nb :
  next_block_ (self w) = Some nb ->
  let mined := Mine nb 100 (miner_ (env w)) in
  (mined.1.1 = true ->
   exists w',
     OnProofSearch w = Ok TRANSMIT_BLOCK w'
     /\ next_block_ (self w') = Some (UpdateDigest mined.1.2)
     /\ hash (body (UpdateDigest mined.1.2)) = digest_of mined.1.2
     /\ calls w' = calls w ++ [Call_Mine nb 100;
                               Call_SetLastProcessedBlock (digest_of mined.1.2)]
     /\ chain_ (env w') = chain_ (env w)
     /\ storage_unit_ (env w') = storage_unit_ (env w)
     /\ last_executed_block_ (self w') = last_executed_block_ (self w))
  /\ (mined.1.1 = false ->
      exists w',
        OnProofSearch w = Ok PROOF_SEARCH w'
        /\ next_block_ (self w') = Some mined.1.2
        /\ calls w' = calls w ++ [Call_Mine nb 100]
        /\ execution_manager_ (env w') = execution_manager_ (env w)
        /\ chain_ (env w') = chain_ (env w)
        /\ storage_unit_ (env w') = storage_unit_ (env w)
        /\ last_executed_block_ (self w') = last_executed_block_ (self w)).
Proof.
  intros Hnb. cbn zeta.
  split; intros; destruct (OnProofSearch w) as [s' w'|f] eqn:Hrun.
  all: unhandlers; unhelpers; unmonad; crunch Hrun; try congruence.
  all: eexists; split; [reflexivity|]; cbn; rewrite <- ?app_assoc; done.
Qed.

(** ** The shape of the blocks of the chain that are executed *)

Lemma validated_block_shaped_tick m m' :
  validated_block_shaped m -> Tick m = Ticked m' -> validated_block_shaped m'.
Proof.
  destruct m as [s p w]. unfold Tick, validated_block_shaped. cbn.
  intros Hinv.
  destruct (handler s p w) as [s' w'|] eqn:Hrun; [|done]. intros [= <-]. cbn.
  destruct s; cbn [handler] in Hrun; unhandlers; unhelpers; unmonad.
  all: cbn in Hinv.
  all: crunch Hrun; cbn; intros Hv; try done.
  all: try (destruct Hinv as (b0 & Hb0 & Hshape); [done|]; simplify_eq;
            eexists; split; [done|]; exact Hshape).
  all: tests_to_props.
  all: eexists; split; [eassumption|]; unfold configured_shape; cbn.
  all: repeat match goal with
       | Hn : ~ ?x <> ?y |- _ =>
           assert (x = y) by (apply dec_stable; exact Hn); clear dependent Hn
       end.
  all: split; [congruence|]; intros Hgen; try congruence.
  repeat split; congruence.
Qed.

(** X20. In every machine reached from RELOAD_STATE by ticks that
    returned, from WAIT_FOR_TRANSACTIONS to POST_EXEC_BLOCK_VALIDATION the
    block of the chain that is worked on ([current_block_]) has the shape
    the node is configured for: its previous hash has 32 bytes and, unless
    it follows GENESIS_DIGEST, its miner has 64 bytes, its
    [log2_num_lanes] is below 32 and gives the configured number of lanes,
    and it has the configured number of slices.  So no block of another
    shape goes from SCHEDULE_BLOCK_EXECUTION to the execution manager.
    (The blocks the node produces itself, [next_block_], are executed
    from EXECUTE_NEW_BLOCK without these tests.) *)
Theorem validated_block_has_configured_shape rely m :
  reachable rely m ->
  validated (state m) ->
  exists b,
    current_block_ (self (world m)) = Some b
    /\ configured_shape (self (world m)) b.
Proof.
  induction 1 as [previous w|m m' _ IH Htick|m e _ IH _|m _ IH].
  - done.
  - by apply (validated_block_shaped_tick m).
  - done.
  - unfold trigger, TriggerBlockGeneration in *. unmonad.
    destruct (mining_ (self (world m))); cbn; [|done].
    intros Hv. destruct (IH Hv) as (b & Hb & Hshape). by exists b.
Qed.

End Properties.

(** * The handlers on the in-memory collaborators *)

Import Sim.

(** Decide a closed proposition by evaluation. *)
Ltac by_evaluation := apply (bool_decide_unpack _); vm_compute; exact I.

Lemma storage_revert_sets_hash h n (s : Storage) :
  (RevertToHash h n s).1 = true -> CurrentHash (RevertToHash h n s).2 = h.
Proof. cbn. by destruct (healthy s && bool_decide ((h, n) ∈ commits s)). Qed.

Lemma storage_commit_keeps_hash n (s : Storage) :
  CurrentHash (Commit n s) = CurrentHash s.
Proof. reflexivity. Qed.

Lemma dummy_miner_keeps_merkle b n (lucky : bool) :
  merkle_hash (body (Mine b n lucky).1.2) = merkle_hash (body b).
Proof. reflexivity. Qed.

Lemma storage_untouched_quiet s (e e' : SimEnv) :
  s = PROOF_SEARCH \/ s = TRANSMIT_BLOCK ->
  storage_untouched s e e' ->
  CurrentHash (storage_unit_ e') = CurrentHash (storage_unit_ e).
Proof. unfold storage_untouched. by intros _ ->. Qed.

Lemma chain_heaviest_block (c : Chain) : is_Some (GetHeaviestBlock c).
Proof. by eexists. Qed.

Lemma machine_transmitting_reachable : reachable storage_untouched machine_transmitting.
Proof.
  unfold machine_transmitting. apply reachable_run, reachable_interfere; [|done].
  apply reachable_run, reachable_start.
Qed.

(** C1 fails on the path it names.  [G1] follows GENESIS_DIGEST and
    declares a state that storage does not hold after its execution; the
    machine, reached from RELOAD_STATE by ticks alone, records [G1] as the
    last executed block all the same. *)
Lemma genesis_block_recorded_without_merkle_match :
  reachable (fun _ _ _ => False) machine_G1_executed
  /\ state machine_G1_executed = POST_EXEC_BLOCK_VALIDATION
  /\ current_block_ (self (world machine_G1_executed)) = Some G1
  /\ previous_hash (body G1) = GENESIS_DIGEST
  /\ exists m',
       Tick machine_G1_executed = Ticked m'
       /\ Call_SetLastExecuted (hash (body G1))
            ∈ new_calls (world machine_G1_executed) (world m')
       /\ last_executed_block_ (self (world m')) = hash (body G1)
       /\ CurrentHash (storage_unit_ (env (world m'))) <> merkle_hash (body G1).
Proof.
  split; [apply reachable_run, reachable_start|].
  split; [by vm_compute|]. split; [by vm_compute|]. split; [by vm_compute|].
  exists (run 1 machine_G1_executed).
  split; [by apply Tick_run; vm_compute|].
  split; [by_evaluation|]. split; [by vm_compute|].
  by_evaluation.
Qed.

(** The update made in TRANSMIT_BLOCK, on a block the node has mined: the
    hypotheses hold of the in-memory storage and miner. *)
Lemma last_executed_block_matches_storage_witness :
  reachable storage_untouched machine_transmitting
  /\ Tick machine_transmitting = Ticked (run 1 machine_transmitting)
  /\ Call_SetLastExecuted (digest "#G")
       ∈ new_calls (world machine_transmitting) (world (run 1 machine_transmitting))
  /\ last_executed_block_ (self (world (run 1 machine_transmitting))) = digest "#G"
  /\ exists b,
       hash (body b) = digest "#G"
       /\ ((state machine_transmitting = RELOAD_STATE
            /\ current_block_ (self (world (run 1 machine_transmitting))) = Some b
            /\ CurrentHash (storage_unit_ (env (world (run 1 machine_transmitting))))
               = merkle_hash (body b))
           \/ (state machine_transmitting = POST_EXEC_BLOCK_VALIDATION
               /\ current_block_ (self (world machine_transmitting)) = Some b
               /\ (previous_hash (body b) <> GENESIS_DIGEST ->
                   CurrentHash (storage_unit_ (env (world (run 1 machine_transmitting))))
                   = merkle_hash (body b)))
           \/ (state machine_transmitting = TRANSMIT_BLOCK
               /\ next_block_ (self (world machine_transmitting)) = Some b
               /\ CurrentHash (storage_unit_ (env (world (run 1 machine_transmitting))))
                  = merkle_hash (body b))).
Proof.
  assert (Htick : Tick machine_transmitting = Ticked (run 1 machine_transmitting))
    by (apply Tick_run; vm_compute; reflexivity).
  assert (Hcall : Call_SetLastExecuted (digest "#G")
            ∈ new_calls (world machine_transmitting) (world (run 1 machine_transmitting)))
    by by_evaluation.
  split; [exact machine_transmitting_reachable|].
  split; [exact Htick|]. split; [exact Hcall|].
  exact (last_executed_block_matches_storage storage_untouched
           storage_revert_sets_hash storage_commit_keeps_hash dummy_miner_keeps_merkle
           storage_untouched_quiet machine_transmitting (run 1 machine_transmitting)
           (digest "#G") machine_transmitting_reachable Htick Hcall).
Defined.

(** C2 fails: POST_EXEC_BLOCK_VALIDATION accepts [G1], whose
    [previous_hash] is GENESIS_DIGEST, although storage does not hold the
    state it declares.  The block is committed and recorded; storage is not
    reverted, the block stays in the chain, and [last_executed_block_] is
    the block's hash, not GENESIS_DIGEST. *)
Lemma genesis_block_not_removed_on_merkle_mismatch :
  current_block_ (self (world machine_G1_executed)) = Some G1
  /\ previous_hash (body G1) = GENESIS_DIGEST
  /\ CurrentHash (storage_unit_ (env (world machine_G1_executed))) <> merkle_hash (body G1)
  /\ match OnPostExecBlockValidation (world machine_G1_executed) with
     | Ok next w' =>
         next = RESET
         /\ new_calls (world machine_G1_executed) w'
            = [Call_Update (digest "t0") EXECUTED; Call_Commit 0;
               Call_SetLastExecuted (hash (body G1))]
         /\ last_executed_block_ (self w') = hash (body G1)
         /\ last_executed_block_ (self w') <> GENESIS_DIGEST
         /\ CurrentHash (storage_unit_ (env w')) <> GENESIS_MERKLE_ROOT
         /\ GetBlock (chain_ (env w')) (hash (body G1)) = Some G1
     | Crash _ => False
     end.
Proof.
  split; [by vm_compute|]. split; [by vm_compute|]. split; [by_evaluation|].
  vm_compute. repeat split; discriminate.
Qed.

(** [G1] is accepted without a comparison. *)
Lemma post_exec_merkle_check_skipped_for_genesis_witness :
  current_block_ (self (world machine_G1_executed)) = Some G1
  /\ exists w',
       OnPostExecBlockValidation (world machine_G1_executed) = Ok RESET w'
       /\ calls w' = calls (world machine_G1_executed)
                      ++ map (fun tx => Call_Update tx EXECUTED) (block_txs G1)
                      ++ [Call_Commit (block_number (body G1));
                          Call_SetLastExecuted (hash (body G1))]
       /\ last_executed_block_ (self w') = hash (body G1)
       /\ chain_ (env w') = chain_ (env (world machine_G1_executed))
       /\ storage_unit_ (env w')
          = Commit (block_number (body G1))
                   (storage_unit_ (env (world machine_G1_executed))).
Proof.
  assert (Hcb : current_block_ (self (world machine_G1_executed)) = Some G1)
    by (vm_compute; reflexivity).
  split; [exact Hcb|].
  exact (proj1 (post_exec_merkle_check_skipped_for_genesis
                  (world machine_G1_executed) G1 Hcb) eq_refl).
Defined.

(** C3 fails for a block that follows GENESIS_DIGEST: [G1] declares eight
    lanes on a node configured for four and passes
    PRE_EXEC_BLOCK_VALIDATION; it is not removed. *)
Lemma genesis_block_passes_with_wrong_lane_count :
  current_block_ (self world_G1_pre_exec) = Some G1
  /\ num_lanes_ (self world_G1_pre_exec) = 4
  /\ shl1u (log2_num_lanes (body G1)) = Some 8
  /\ match OnPreExecBlockValidation world_G1_pre_exec with
     | Ok next w' =>
         next = WAIT_FOR_TRANSACTIONS
         /\ calls w' = []
         /\ GetBlock (chain_ (env w')) (hash (body G1)) = Some G1
     | Crash _ => False
     end.
Proof. vm_compute. repeat split. Qed.

(** [B1x] follows [G], declares eight lanes and is rejected. *)
Lemma lane_count_mismatch_rejected_unless_genesis_witness :
  current_block_ (self world_B1x_pre_exec) = Some B1x
  /\ previous_hash (body B1x) <> GENESIS_DIGEST
  /\ 0 <= log2_num_lanes (body B1x) < 32
  /\ num_lanes_ (self world_B1x_pre_exec) <> Z.shiftl 1 (log2_num_lanes (body B1x))
  /\ exists w',
       OnPreExecBlockValidation world_B1x_pre_exec = Ok RESET w'
       /\ calls w' = calls world_B1x_pre_exec ++ [Call_RemoveBlock (hash (body B1x))]
       /\ chain_ (env w')
          = RemoveBlock (hash (body B1x)) (chain_ (env world_B1x_pre_exec)).
Proof.
  assert (Hgen : previous_hash (body B1x) <> GENESIS_DIGEST) by by_evaluation.
  assert (Hrange : 0 <= log2_num_lanes (body B1x) < 32) by by_evaluation.
  assert (Hlanes : num_lanes_ (self world_B1x_pre_exec)
                   <> Z.shiftl 1 (log2_num_lanes (body B1x))) by by_evaluation.
  split; [reflexivity|]. split; [exact Hgen|]. split; [exact Hrange|].
  split; [exact Hlanes|].
  exact (proj1 (lane_count_mismatch_rejected_unless_genesis
                  world_B1x_pre_exec B1x eq_refl) Hgen Hrange Hlanes).
Defined.

(** The removal of [B1x] is the removal of a block that failed a check. *)
Lemma RemoveBlock_only_after_failed_validation_witness :
  Tick machine_B1x_pre_exec = Ticked (run 1 machine_B1x_pre_exec)
  /\ Call_RemoveBlock (digest "B1x")
       ∈ new_calls (world machine_B1x_pre_exec) (world (run 1 machine_B1x_pre_exec))
  /\ exists b,
       current_block_ (self (world machine_B1x_pre_exec)) = Some b
       /\ digest "B1x" = hash (body b)
       /\ ((state machine_B1x_pre_exec = PRE_EXEC_BLOCK_VALIDATION
            /\ fails_pre_exec_check (world machine_B1x_pre_exec) b)
           \/ (state machine_B1x_pre_exec = POST_EXEC_BLOCK_VALIDATION
               /\ fails_post_exec_check (world machine_B1x_pre_exec) b)).
Proof.
  assert (Htick : Tick machine_B1x_pre_exec = Ticked (run 1 machine_B1x_pre_exec))
    by (apply Tick_run; vm_compute; reflexivity).
  assert (Hcall : Call_RemoveBlock (digest "B1x")
            ∈ new_calls (world machine_B1x_pre_exec) (world (run 1 machine_B1x_pre_exec)))
    by by_evaluation.
  split; [exact Htick|]. split; [exact Hcall|].
  exact (RemoveBlock_only_after_failed_validation machine_B1x_pre_exec
           (run 1 machine_B1x_pre_exec) (digest "B1x") Htick Hcall).
Defined.

(** C5 fails when storage has the ancestor's state but cannot revert to
    it: the path from [B2] back to [G] is found, the ancestor's state is
    known, the revert is refused; the next state is RESET and
    [current_block_] is [B2], not the last but one block [B1] of the path. *)
Lemma failed_revert_to_ancestor_resets :
  block_to_synchronise (world_reorg false) = Some B2
  /\ LastProcessedBlock (execution_manager_ (env (world_reorg false))) = hash (body G)
  /\ hash (body G) <> GENESIS_DIGEST
  /\ GetPathToCommonAncestor (chain_ (env (world_reorg false)))
       (hash (body B2)) (hash (body G)) = Some [B2; B1; G]
  /\ HashExists (storage_unit_ (env (world_reorg false)))
       (merkle_hash (body G)) (block_number (body G)) = true
  /\ match OnSynchronizing (world_reorg false) with
     | Ok next w' =>
         next = RESET
         /\ current_block_ (self w') = Some B2
         /\ calls w' = [Call_RevertToHash (merkle_hash (body G)) (block_number (body G))]
     | Crash _ => False
     end.
Proof.
  split; [by vm_compute|]. split; [by vm_compute|]. split; [by_evaluation|].
  split; [by vm_compute|]. split; [by vm_compute|].
  vm_compute. repeat split.
Qed.

(** With a healthy store the revert to [G] succeeds and [B1] is next. *)
Lemma OnSynchronizing_reorg_witness :
  block_to_synchronise (world_reorg true) = Some B2
  /\ LastProcessedBlock (execution_manager_ (env (world_reorg true))) <> GENESIS_DIGEST
  /\ hash (body B2) <> LastProcessedBlock (execution_manager_ (env (world_reorg true)))
  /\ GetPathToCommonAncestor (chain_ (env (world_reorg true))) (hash (body B2))
       (LastProcessedBlock (execution_manager_ (env (world_reorg true))))
     = Some [B2; B1; G]
  /\ exists w',
       OnSynchronizing (world_reorg true) = Ok PRE_EXEC_BLOCK_VALIDATION w'
       /\ calls w' = calls (world_reorg true)
                      ++ [Call_RevertToHash (merkle_hash (body G)) (block_number (body G))]
       /\ storage_unit_ (env w')
          = (RevertToHash (merkle_hash (body G)) (block_number (body G))
               (storage_unit_ (env (world_reorg true)))).2
       /\ current_block_ (self w') = Some B1.
Proof.
  assert (Hcur : block_to_synchronise (world_reorg true) = Some B2)
    by (vm_compute; reflexivity).
  assert (Hlpb : LastProcessedBlock (execution_manager_ (env (world_reorg true)))
                 <> GENESIS_DIGEST) by by_evaluation.
  assert (Hneq : hash (body B2)
                 <> LastProcessedBlock (execution_manager_ (env (world_reorg true))))
    by by_evaluation.
  assert (Hpath : GetPathToCommonAncestor (chain_ (env (world_reorg true))) (hash (body B2))
                    (LastProcessedBlock (execution_manager_ (env (world_reorg true))))
                  = Some [B2; B1; G]) by (vm_compute; reflexivity).
  split; [exact Hcur|]. split; [exact Hlpb|]. split; [exact Hneq|]. split; [exact Hpath|].
  refine (proj1 (proj2 (OnSynchronizing_reorg (world_reorg true) B2 [B2; B1; G] G B1 [B2]
                          Hcur Hlpb Hneq Hpath eq_refl)) _ _);
    vm_compute; reflexivity.
Defined.

(** ** The spec-modelled path to the common ancestor *)

Lemma walk_until_nonempty stop walk path :
  walk_until stop walk = Some path -> path <> [].
Proof.
  destruct walk as [|b rest]; cbn; [done|].
  destruct (stop b); [by intros [= <-]|].
  destruct (walk_until stop rest); [by intros [= <-]|done].
Qed.

Lemma walk_until_head stop walk path :
  walk_until stop walk = Some path -> head path = head walk.
Proof.
  destruct walk as [|b rest]; cbn; [done|].
  destruct (stop b); [by intros [= <-]|].
  destruct (walk_until stop rest); [by intros [= <-]|done].
Qed.

(** What the interface promises: on success the sequence is not empty and
    starts with the block at [from]. *)
Lemma path_to_common_ancestor_nonempty store from to path :
  path_to_common_ancestor store from to = Some path ->
  exists b rest, path = b :: rest /\ store !! from = Some b.
Proof.
  unfold path_to_common_ancestor. intros Hpath.
  pose proof (walk_until_head _ _ _ Hpath) as Hhead.
  destruct path as [|b rest]; [by apply walk_until_nonempty in Hpath|].
  exists b, rest. split; [done|].
  destruct (size store) as [|n]; cbn in Hhead; [done|].
  destruct (store !! from); cbn in Hhead; [congruence|done].
Qed.

(** The sequence has two blocks or more as soon as the block at [from] is
    neither [to] nor an ancestor of [to]. *)
Lemma path_to_common_ancestor_two_blocks store from to path b :
  path_to_common_ancestor store from to = Some path ->
  store !! from = Some b ->
  hash (body b) ∉ map (fun a => hash (body a)) (ancestry (size store) store to) ->
  (2 <= length path)%nat.
Proof.
  unfold path_to_common_ancestor. intros Hpath Hfrom Hline.
  destruct (size store) as [|n] eqn:Hsize; [done|].
  cbn [ancestry] in Hpath. rewrite Hfrom in Hpath. cbn [walk_until] in Hpath.
  rewrite bool_decide_eq_false_2 in Hpath by done.
  destruct (walk_until _ _) as [rest|] eqn:Hrest; [|done].
  apply walk_until_nonempty in Hrest. simplify_eq.
  destruct rest; [done|]. cbn. lia.
Qed.




(** Of the three transactions of [B1] storage has one; two remain. *)
Lemma OnWaitForTransactions_tick_witness :
  current_block_ (self world_B1_waiting) = Some B1
  /\ exists w',
       OnWaitForTransactions world_B1_waiting = Ok WAIT_FOR_TRANSACTIONS w'
       /\ pending_txs_ (self w') = Some {[digest "t2"; digest "t3"]}
       /\ calls w' = [Call_Delay 200].
Proof.
  split; [reflexivity|].
  destruct (OnWaitForTransactions_tick world_B1_waiting B1 eq_refl)
    as (_ & _ & _ & w' & Hrun & Hpending & Hcalls & _).
  cbn zeta in Hrun, Hpending, Hcalls.
  destruct (decide _) as [Hempty|_] in Hrun, Hpending, Hcalls.
  { exfalso. revert Hempty. by_evaluation. }
  exists w'. split; [exact Hrun|]. split; [|exact Hcalls].
  rewrite Hpending. apply f_equal. by_evaluation.
Defined.

(** The mined block is new to the chain: all three effects are made. *)
Lemma OnTransmitBlock_effects_iff_added_witness :
  next_block_ (self (world machine_transmitting)) = Some mined
  /\ (AddBlock mined (chain_ (env (world machine_transmitting)))).1 = Returned ADDED
  /\ exists w',
       OnTransmitBlock (world machine_transmitting) = Ok RESET w'
       /\ calls w' = calls (world machine_transmitting)
                      ++ [Call_AddBlock mined; Call_SetLastExecuted (hash (body mined));
                          Call_OnBlock mined]
       /\ last_executed_block_ (self w') = hash (body mined).
Proof.
  assert (Hnb : next_block_ (self (world machine_transmitting)) = Some mined)
    by (vm_compute; reflexivity).
  assert (Hadded : (AddBlock mined (chain_ (env (world machine_transmitting)))).1
                   = Returned ADDED) by (vm_compute; reflexivity).
  split; [exact Hnb|]. split; [exact Hadded|].
  destruct (OnTransmitBlock_effects_iff_added (world machine_transmitting) mined Hnb)
    as (w' & Hrun & Hyes & _).
  destruct (Hyes Hadded) as (Hcalls & Hlast & _).
  exists w'. split; [exact Hrun|]. split; [exact Hcalls|exact Hlast].
Defined.

(** Seven ticks after the start the machine validates [G1], which is set. *)
Lemma block_references_set_when_dereferenced_witness :
  (forall c : Chain, is_Some (GetHeaviestBlock c))
  /\ reachable (fun _ _ _ => True) machine_G1_executed
  /\ state machine_G1_executed = POST_EXEC_BLOCK_VALIDATION
  /\ is_Some (current_block_ (self (world machine_G1_executed)))
  /\ Tick machine_G1_executed <> Faulted NullDereference.
Proof.
  assert (Hreach : reachable (fun _ _ _ => True) machine_G1_executed)
    by apply reachable_run, reachable_start.
  split; [exact chain_heaviest_block|]. split; [exact Hreach|].
  split; [vm_compute; reflexivity|].
  destruct (block_references_set_when_dereferenced (fun _ _ _ => True)
              chain_heaviest_block machine_G1_executed Hreach) as (Hcur & _ & Hnull).
  split; [|exact Hnull].
  apply Hcur. vm_compute. exact I.
Defined.

(** * The further properties on the in-memory collaborators *)

(** The rejection of [B1x] follows the edge from PRE_EXEC_BLOCK_VALIDATION
    to RESET. *)
Lemma Tick_follows_transition_graph_witness :
  Tick machine_B1x_pre_exec = Ticked (run 1 machine_B1x_pre_exec)
  /\ state (run 1 machine_B1x_pre_exec) ∈ successors (state machine_B1x_pre_exec)
  /\ previous_state (run 1 machine_B1x_pre_exec) = state machine_B1x_pre_exec.
Proof.
  assert (Htick : Tick machine_B1x_pre_exec = Ticked (run 1 machine_B1x_pre_exec))
    by (apply Tick_run; vm_compute; reflexivity).
  split; [exact Htick|].
  exact (Tick_follows_transition_graph machine_B1x_pre_exec
           (run 1 machine_B1x_pre_exec) Htick).
Defined.

(** The update of [last_executed_block_] for [G1] is made from
    POST_EXEC_BLOCK_VALIDATION. *)
Lemma Tick_calls_within_footprint_witness :
  Tick machine_G1_executed = Ticked (run 1 machine_G1_executed)
  /\ Call_SetLastExecuted (digest "G1")
       ∈ new_calls (world machine_G1_executed) (world (run 1 machine_G1_executed))
  /\ state machine_G1_executed ∈ callers (Call_SetLastExecuted (digest "G1")).
Proof.
  assert (Htick : Tick machine_G1_executed = Ticked (run 1 machine_G1_executed))
    by (apply Tick_run; vm_compute; reflexivity).
  assert (Hcall : Call_SetLastExecuted (digest "G1")
            ∈ new_calls (world machine_G1_executed) (world (run 1 machine_G1_executed)))
    by by_evaluation.
  split; [exact Htick|]. split; [exact Hcall|].
  exact (Tick_calls_within_footprint machine_G1_executed (run 1 machine_G1_executed)
           (Call_SetLastExecuted (digest "G1")) Htick Hcall).
Defined.

(** The commit at block 0 is that of the accepted block [G1]. *)
Lemma Commit_only_after_completed_execution_witness :
  Tick machine_G1_executed = Ticked (run 1 machine_G1_executed)
  /\ Call_Commit 0
       ∈ new_calls (world machine_G1_executed) (world (run 1 machine_G1_executed))
  /\ ((state machine_G1_executed = POST_EXEC_BLOCK_VALIDATION
       /\ exists b,
            current_block_ (self (world machine_G1_executed)) = Some b
            /\ 0 = block_number (body b)
            /\ ~ fails_post_exec_check (world machine_G1_executed) b)
      \/ (state machine_G1_executed = WAIT_FOR_NEW_BLOCK_EXECUTION
          /\ GetState (execution_manager_ (env (world machine_G1_executed))) = ES_IDLE
          /\ exists b,
               next_block_ (self (world machine_G1_executed)) = Some b
               /\ 0 = block_number (body b)
               /\ next_block_ (self (world (run 1 machine_G1_executed)))
                  = Some (set_body
                            (with_merkle_hash
                               (CurrentHash
                                  (storage_unit_ (env (world machine_G1_executed))))) b))).
Proof.
  assert (Htick : Tick machine_G1_executed = Ticked (run 1 machine_G1_executed))
    by (apply Tick_run; vm_compute; reflexivity).
  assert (Hcall : Call_Commit 0
            ∈ new_calls (world machine_G1_executed) (world (run 1 machine_G1_executed)))
    by by_evaluation.
  split; [exact Htick|]. split; [exact Hcall|].
  exact (Commit_only_after_completed_execution machine_G1_executed
           (run 1 machine_G1_executed) 0 Htick Hcall).
Defined.

(** [G1] is handed to the execution manager from SCHEDULE_BLOCK_EXECUTION. *)
Lemma Execute_only_when_scheduling_witness :
  Tick machine_G1_scheduling = Ticked (run 1 machine_G1_scheduling)
  /\ Call_Execute (body G1)
       ∈ new_calls (world machine_G1_scheduling) (world (run 1 machine_G1_scheduling))
  /\ state machine_G1_scheduling = SCHEDULE_BLOCK_EXECUTION
  /\ state (run 1 machine_G1_scheduling) = WAIT_FOR_EXECUTION.
Proof.
  assert (Htick : Tick machine_G1_scheduling = Ticked (run 1 machine_G1_scheduling))
    by (apply Tick_run; vm_compute; reflexivity).
  assert (Hcall : Call_Execute (body G1)
            ∈ new_calls (world machine_G1_scheduling) (world (run 1 machine_G1_scheduling)))
    by by_evaluation.
  split; [exact Htick|]. split; [exact Hcall|].
  destruct (Execute_only_when_scheduling machine_G1_scheduling
              (run 1 machine_G1_scheduling) (body G1) Htick Hcall)
    as [(Hs & _ & Hnext)|(Hs & _)].
  - split; [exact Hs|]. rewrite Hnext. vm_compute. reflexivity.
  - exfalso. vm_compute in Hs. discriminate Hs.
Defined.

(** [B1] still misses two transactions: the machine waits, with a delay. *)
Lemma Delay_exactly_when_waiting_witness :
  Tick machine_B1_waiting = Ticked (run 1 machine_B1_waiting)
  /\ state (run 1 machine_B1_waiting) = state machine_B1_waiting
  /\ exists ms,
       new_calls (world machine_B1_waiting) (world (run 1 machine_B1_waiting))
       = [Call_Delay ms].
Proof.
  assert (Htick : Tick machine_B1_waiting = Ticked (run 1 machine_B1_waiting))
    by (apply Tick_run; vm_compute; reflexivity).
  assert (Hstay : state (run 1 machine_B1_waiting) = state machine_B1_waiting)
    by (vm_compute; reflexivity).
  split; [exact Htick|]. split; [exact Hstay|].
  refine (proj2 (Delay_exactly_when_waiting machine_B1_waiting
                   (run 1 machine_B1_waiting) Htick) _ Hstay).
  by_evaluation.
Defined.

(** [B1] has been validated: no set of pending transactions is held yet. *)
Lemma pending_txs_held_only_while_waiting_witness :
  reachable (fun _ _ _ => True) (run 5 (start coordinator0 env_B1))
  /\ pending_txs_confined (run 5 (start coordinator0 env_B1)).
Proof.
  assert (Hreach : reachable (fun _ _ _ => True) (run 5 (start coordinator0 env_B1)))
    by apply reachable_run, reachable_start.
  split; [exact Hreach|].
  exact (pending_txs_held_only_while_waiting (fun _ _ _ => True)
           (run 5 (start coordinator0 env_B1)) Hreach).
Defined.

(** While the mined block is transmitted no block of the chain is held. *)
Lemma block_references_never_both_in_use_witness :
  reachable (fun _ _ _ => True) machine_transmitting
  /\ state machine_transmitting = TRANSMIT_BLOCK
  /\ current_block_ (self (world machine_transmitting)) = None.
Proof.
  assert (Hreach : reachable (fun _ _ _ => True) machine_transmitting).
  { unfold machine_transmitting. apply reachable_run, reachable_interfere; [|done].
    apply reachable_run, reachable_start. }
  split; [exact Hreach|]. split; [vm_compute; reflexivity|].
  apply (proj1 (block_references_never_both_in_use (fun _ _ _ => True)
                  machine_transmitting Hreach)).
  vm_compute. exact I.
Defined.

(** A fresh node that meets [B34] on top of [G]: once [G] is executed the
    validation of [B34] shifts by 34. *)
Lemma Tick_faults_in_two_places_only_witness :
  (forall c : Chain, is_Some (GetHeaviestBlock c))
  /\ reachable (fun _ _ _ => True) machine_B34_pre_exec
  /\ Tick machine_B34_pre_exec = Faulted UndefinedShift
  /\ state machine_B34_pre_exec = PRE_EXEC_BLOCK_VALIDATION
  /\ exists b,
       current_block_ (self (world machine_B34_pre_exec)) = Some b
       /\ shifts_out_of_range (world machine_B34_pre_exec) b.
Proof.
  assert (Hheaviest : forall c : Chain, is_Some (GetHeaviestBlock c))
    by (intros c; eexists; reflexivity).
  assert (Hreach : reachable (fun _ _ _ => True) machine_B34_pre_exec)
    by apply reachable_run, reachable_start.
  assert (Htick : Tick machine_B34_pre_exec = Faulted UndefinedShift)
    by (vm_compute; reflexivity).
  split; [exact Hheaviest|]. split; [exact Hreach|]. split; [exact Htick|].
  destruct (Tick_faults_in_two_places_only (fun _ _ _ => True) Hheaviest
              machine_B34_pre_exec UndefinedShift Hreach Htick)
    as [(Hf & _)|(_ & Hrest)]; [discriminate Hf|exact Hrest].
Defined.

(** From [B1] the walk steps back to [G], which is validated next. *)
Lemma synchronizing_walks_back_witness :
  state machine_walking = SYNCHRONIZING
  /\ current_block_ (self (world machine_walking)) = Some B1
  /\ walk_back (chain_ (env (world machine_walking))) B1 [G]
  /\ state (run 1 machine_walking) = SYNCHRONIZING
  /\ current_block_ (self (world (run 1 machine_walking))) = Some G
  /\ state (run 2 machine_walking) = PRE_EXEC_BLOCK_VALIDATION
  /\ current_block_ (self (world (run 2 machine_walking))) = Some G.
Proof.
  assert (Hstate : state machine_walking = SYNCHRONIZING) by (vm_compute; reflexivity).
  assert (Hcur : current_block_ (self (world machine_walking)) = Some B1)
    by (vm_compute; reflexivity).
  assert (Hlpb : LastProcessedBlock (execution_manager_ (env (world machine_walking)))
                 = GENESIS_DIGEST) by (vm_compute; reflexivity).
  assert (Hwalk : walk_back (chain_ (env (world machine_walking))) B1 [G]).
  { split; [by_evaluation|]. split; [vm_compute; reflexivity|exact I]. }
  split; [exact Hstate|]. split; [exact Hcur|]. split; [exact Hwalk|].
  destruct (synchronizing_walks_back machine_walking B1 [G]
              Hstate Hcur Hlpb Hwalk) as (Hs & Hcb & _ & _ & Hlast).
  split; [exact Hs|]. split; [exact Hcb|].
  apply Hlast. vm_compute. reflexivity.
Defined.

(** Aligned on [B2]: the machine is synchronised. *)
Lemma OnSynchronizing_without_reorg_witness :
  block_to_synchronise world_aligned = Some B2
  /\ exists w',
       OnSynchronizing world_aligned = Ok SYNCHRONIZED w'
       /\ current_block_ (self w') = Some B2
       /\ calls w' = calls world_aligned /\ env w' = env world_aligned.
Proof.
  assert (Hcur : block_to_synchronise world_aligned = Some B2)
    by (vm_compute; reflexivity).
  split; [exact Hcur|].
  refine (proj2 (OnSynchronizing_without_reorg world_aligned B2 Hcur) _ _).
  - by_evaluation.
  - vm_compute. reflexivity.
Defined.

(** Synchronised on [G] with the block period over: a block is started. *)
Lemma OnSynchronized_outcomes_witness :
  current_block_ (self (world machine_ready)) = Some G
  /\ exists w',
       OnSynchronized SYNCHRONIZED SYNCHRONIZING (world machine_ready)
       = Ok PACK_NEW_BLOCK w'
       /\ current_block_ (self w') = None
       /\ next_block_ (self w') = Some (new_block (self (world machine_ready)) G)
       /\ calls w' = calls (world machine_ready) /\ env w' = env (world machine_ready).
Proof.
  assert (Hcb : current_block_ (self (world machine_ready)) = Some G)
    by (vm_compute; reflexivity).
  split; [exact Hcb|].
  refine (proj1 (proj2 (OnSynchronized_outcomes SYNCHRONIZED SYNCHRONIZING
                          (world machine_ready) G Hcb)) _ _);
    vm_compute; reflexivity.
Defined.

(** Synchronised on [G] before the block period is over: the trigger makes
    the node start a block all the same. *)
Lemma trigger_starts_block_generation_witness :
  state machine_synchronised = SYNCHRONIZED
  /\ state (run 1 machine_synchronised) = SYNCHRONIZED
  /\ exists m',
       Tick (trigger machine_synchronised) = Ticked m'
       /\ state m' = PACK_NEW_BLOCK
       /\ next_block_ (self (world m'))
          = Some (new_block (self (world machine_synchronised)) G)
       /\ current_block_ (self (world m')) = None.
Proof.
  split; [vm_compute; reflexivity|]. split; [vm_compute; reflexivity|].
  refine (proj1 (trigger_starts_block_generation machine_synchronised G _ _ _ _) _);
    vm_compute; reflexivity.
Defined.

(** Storage cannot revert to the state of [B2]: nothing is recorded. *)
Lemma OnReloadState_outcomes_witness :
  block_to_synchronise world0 = Some B2
  /\ exists w',
       OnReloadState world0 = Ok RESET w'
       /\ current_block_ (self w') = Some B2
       /\ calls w' = [Call_RevertToHash (merkle_hash (body B2)) (block_number (body B2))]
       /\ last_executed_block_ (self w') = GENESIS_DIGEST.
Proof.
  assert (Hcur : block_to_synchronise world0 = Some B2) by (vm_compute; reflexivity).
  split; [exact Hcur|].
  destruct (OnReloadState_outcomes world0 B2 Hcur) as (w' & Hrun & Hcb & _ & Hfail & _).
  destruct Hfail as (Hcalls & _ & Hlast); [by_evaluation|vm_compute; reflexivity|].
  exists w'. split; [exact Hrun|]. split; [exact Hcb|]. split; [exact Hcalls|exact Hlast].
Defined.

(** The execution of [G1] is over: its validation comes next. *)
Lemma waiting_follows_execution_state_witness :
  Tick machine_G1_executing = Ticked (run 1 machine_G1_executing)
  /\ state machine_G1_executing = WAIT_FOR_EXECUTION
  /\ state (run 1 machine_G1_executing)
     = after_execution POST_EXEC_BLOCK_VALIDATION WAIT_FOR_EXECUTION
         (GetState (execution_manager_ (env (world machine_G1_executing)))).
Proof.
  assert (Htick : Tick machine_G1_executing = Ticked (run 1 machine_G1_executing))
    by (apply Tick_run; vm_compute; reflexivity).
  assert (Hs : state machine_G1_executing = WAIT_FOR_EXECUTION)
    by (vm_compute; reflexivity).
  split; [exact Htick|]. split; [exact Hs|].
  exact (proj1 (waiting_follows_execution_state machine_G1_executing
                  (run 1 machine_G1_executing) Htick) Hs).
Defined.

(** The fresh block is packed: two empty slices, and the next block time
    is one period from now. *)
Lemma OnPackNewBlock_outcomes_witness :
  next_block_ (self (world (run 1 machine_ready))) = Some (new_block miner0 G)
  /\ exists w',
       OnPackNewBlock (world (run 1 machine_ready)) = Ok EXECUTE_NEW_BLOCK w'
       /\ next_block_time_ (self w') = 8000.
Proof.
  assert (Hnb : next_block_ (self (world (run 1 machine_ready)))
                = Some (new_block miner0 G)) by (vm_compute; reflexivity).
  split; [exact Hnb|].
  destruct (OnPackNewBlock_outcomes (world (run 1 machine_ready)) (new_block miner0 G) Hnb)
    as (w' & Hrun & _ & _ & _ & _ & Htime).
  exists w'. split; [exact Hrun|exact Htime].
Defined.

(** The candidate is mined at the first attempt. *)
Lemma OnProofSearch_outcomes_witness :
  next_block_ (self (world (run 4 machine_ready))) = Some candidate
  /\ exists w',
       OnProofSearch (world (run 4 machine_ready)) = Ok TRANSMIT_BLOCK w'
       /\ next_block_ (self w') = Some mined.
Proof.
  assert (Hnb : next_block_ (self (world (run 4 machine_ready))) = Some candidate)
    by (vm_compute; reflexivity).
  split; [exact Hnb|].
  destruct (proj1 (OnProofSearch_outcomes (world (run 4 machine_ready)) candidate Hnb))
    as (w' & Hrun & Hnext & _); [vm_compute; reflexivity|].
  exists w'. split; [exact Hrun|exact Hnext].
Defined.

(** [B1], which follows [G], has the configured shape when it is executed. *)
Lemma validated_block_has_configured_shape_witness :
  reachable (fun _ _ _ => True) machine_B1_validated
  /\ state machine_B1_validated = WAIT_FOR_TRANSACTIONS
  /\ exists b,
       current_block_ (self (world machine_B1_validated)) = Some b
       /\ configured_shape (self (world machine_B1_validated)) b.
Proof.
  assert (Hreach : reachable (fun _ _ _ => True) machine_B1_validated)
    by apply reachable_run, reachable_start.
  split; [exact Hreach|]. split; [vm_compute; reflexivity|].
  apply (validated_block_has_configured_shape (fun _ _ _ => True)
           machine_B1_validated Hreach).
  vm_compute. exact I.
Defined.
